(** * gary4juce control center: service supervisor and health monitor

    A shallow embedding of the supervisor core of [launcher.py]:
    the [ServiceWorker] start/stop sequences, the [HealthChecker]
    monitoring loop and the status aggregation of
    [Gary4JUCEControlCenter].

    Python objects are threaded explicitly: the mutable attributes of the
    control center, of its worker and of its health checker form one record
    [App]; everything the code asks of the operating system or the network
    (process exit codes, sockets, HTTP, files, the clock) is an oracle of
    the record [World]; what the code does to the outside (log lines, Qt
    signals, process launches and kills, sleeps) is appended to a trace. *)

From Stdlib Require Import ZArith Ascii String List Bool Lia.
From stdpp Require Import base option list gmap strings.

Local Open Scope string_scope.
Local Open Scope Z_scope.

(** ** Data model *)

(** A [subprocess.Popen] object. Only the process id identifies it; its
    exit status is asked of the world with [poll]. A [Popen] object is
    always truthy, so the guard [process and ...] of the source reduces to
    its second operand. *)
Record Popen : Type := mkPopen { pid : Z }.

(** One entry of [self.services]. *)
Record ServiceConfig : Type := mkConfig {
  cfg_dir : string;
  cfg_script : string;
  cfg_port : Z;
  cfg_name : string
}.

(** The four display states shared by the widgets and the tray icon. *)
Inductive DisplayState : Type := stopped | starting | running | error.

(** Outcome of [requests.get(.../health, timeout=...)]. *)
Inductive HttpOutcome : Type :=
| Response (status_code : Z)
| ConnectionError
| Timeout
| OtherError.

(** The dict returned by [check_service_health_detailed]. *)
Record Detailed : Type := mkDetailed {
  d_success : bool;
  d_status_code : option Z;
  d_error : string;
  d_healthy : bool
}.

(** Outcome of [process.wait(timeout=...)]. *)
Inductive WaitOutcome : Type := Exited | TimeoutExpired | WaitError.

Inductive Operation : Type := OpStart | OpStop.

(** Log lines, one constructor per format string of the source. *)
Inductive Msg : Type :=
| MsgStartingBackend
| MsgRedisNotFound
| MsgStartingRedis
| MsgRedisDefaultConfig
| MsgRedisStarted (p : Z)
| MsgRedisDied (exit_code : Z)
| MsgRedisHint
| MsgRedisResponding
| MsgWaitingRedis (attempt max_retries : Z)
| MsgRedisNotResponding
| MsgRedisFailed
| MsgFilesNotFound (display : string) (python script : bool)
| MsgStartingService (display : string) (port : Z)
| MsgServiceStarted (display : string) (p : Z)
| MsgDebugLog (file : string)
| MsgServiceDiedImmediately (display : string) (exit_code : Z)
| MsgErrorLine (line : string)
| MsgNoErrorOutput
| MsgCouldNotReadLog
| MsgAccessViolationStart
| MsgRunningSuccessfully (display : string)
| MsgFailedToStart (display : string)
| MsgAllStarted
| MsgMayTakeAMoment
| MsgCheckDebugLogs
| MsgLogFile (file : string)
| MsgErrorStarting
| MsgStoppingAll
| MsgStopped (display : string)
| MsgForceStopped (display : string)
| MsgErrorStopping (name : string)
| MsgStoppedRedis
| MsgAllStopped
| MsgIsHealthy (display : string)
| MsgHealthCheckFailed (display : string)
| MsgProcessDied (display : string) (exit_code : Z)
| MsgAccessViolation
| MsgHealthCheckError
| MsgStartingServices
| MsgStoppingServices.

Inductive Exn : Type :=
| LogError          (* [add_log] failed on the Qt side *)
| OSError           (* [subprocess.Popen] could not launch *)
| ProcessError      (* [terminate], [kill] or [wait] failed *)
| KeyError.

(** Observable effects, in program order. *)
Inductive Event : Type :=
| EvLogMessage (m : Msg)           (* [log_message.emit("system", m)] *)
| EvAddLog (m : Msg)               (* [parent.add_log("system", m)] *)
| EvStatusChanged
| EvServicesStarted
| EvServicesStopped
| EvPopen (name : string) (argv : list string) (cwd : string)
          (env : gmap string string)
| EvSleep (milliseconds : Z)
| EvTerminate (p : Z)
| EvKill (p : Z)
| EvWait (p : Z) (timeout : Z)
| EvTaskkillRedis
| EvCheckRedis
| EvCheckPort (port : Z)
| EvHealthGet (port : Z) (timeout : Z)
| EvDetailedHealth (name : string) (d : Detailed)
| EvHealthStatus (status : gmap string bool)
| EvStartBtnEnabled (b : bool)
| EvStopBtnEnabled (b : bool)
| EvWorkerStart (op : Operation).

(** ** Insertion-ordered dictionaries

    [self.services] and [self.processes] are iterated with [.items()], so
    their order is part of the behaviour: they are association lists with
    the update discipline of a Python dict (an existing key keeps its
    position, a new key goes last). *)
Section Dict.
Context {V : Type}.

Fixpoint dict_get (k : string) (d : list (string * V)) : option V :=
  match d with
  | [] => None
  | (k', v) :: d' => if String.eqb k k' then Some v else dict_get k d'
  end.

Definition dict_mem (k : string) (d : list (string * V)) : bool :=
  match dict_get k d with Some _ => true | None => false end.

Fixpoint dict_set (k : string) (v : V) (d : list (string * V))
  : list (string * V) :=
  match d with
  | [] => [(k, v)]
  | (k', v') :: d' =>
      if String.eqb k k' then (k', v) :: d' else (k', v') :: dict_set k v d'
  end.

Fixpoint dict_del (k : string) (d : list (string * V))
  : list (string * V) :=
  match d with
  | [] => []
  | (k', v') :: d' =>
      if String.eqb k k' then d' else (k', v') :: dict_del k d'
  end.

Definition dict_keys (d : list (string * V)) : list string := map fst d.
End Dict.

(** ** The world: everything the program observes but does not own *)
Record World : Type := mkWorld {
  (** [self.services], fixed in [__init__] and never mutated. *)
  services : list (string * ServiceConfig);
  base_dir : string;
  (** [time.time()], in seconds; the float of the source is taken as an
      exact number. *)
  time_now : Z;
  (** Result of [check_redis_health()]; the index is the number of earlier
      calls within the same operation (the retry loop calls it repeatedly). *)
  redis_health : nat -> bool;
  (** [check_port_listening(port)]: [connect_ex] returned 0. *)
  port_listening : Z -> bool;
  (** [requests.get("http://localhost:port/health", timeout=timeout)]. *)
  http_get : Z -> Z -> HttpOutcome;
  (** [process.poll()] of the process with the given pid. *)
  poll : Z -> option Z;
  (** Whether [add_log] raises for a line (it touches Qt widgets). *)
  add_log_raises : Msg -> bool;
  path_exists : string -> bool;
  (** [subprocess.Popen(...)] for the named program; [None] when it raises. *)
  popen : string -> option Popen;
  os_environ : gmap string string;
  dotenv_values : gmap string string;
  (** Stripped contents of a debug log; [None] when reading raises. *)
  read_stripped : string -> option string;
  terminate_raises : Z -> bool;
  (** [process.wait(timeout)] after terminate resp. after kill. *)
  wait_after_terminate : Z -> WaitOutcome;
  wait_after_kill : Z -> WaitOutcome;
  taskkill_raises : bool
}.

(** ** Program state *)
Record App : Type := mkApp {
  (* Gary4JUCEControlCenter *)
  services_running : bool;
  processes : list (string * Popen);
  start_time : option Z;
  last_health_status : gmap string bool;
  (* ServiceWorker *)
  worker_operation : option Operation;
  worker_isRunning : bool;
  (* HealthChecker *)
  hc_running : bool;
  detailed_check_counter : Z;
  services_confirmed_healthy : gmap string Z;
  (* effects so far *)
  trace : list Event
}.

Definition set_services_running (b : bool) (a : App) : App :=
  mkApp b (processes a) (start_time a) (last_health_status a)
        (worker_operation a) (worker_isRunning a) (hc_running a)
        (detailed_check_counter a) (services_confirmed_healthy a) (trace a).

Definition set_processes (p : list (string * Popen)) (a : App) : App :=
  mkApp (services_running a) p (start_time a) (last_health_status a)
        (worker_operation a) (worker_isRunning a) (hc_running a)
        (detailed_check_counter a) (services_confirmed_healthy a) (trace a).

Definition set_start_time (t : option Z) (a : App) : App :=
  mkApp (services_running a) (processes a) t (last_health_status a)
        (worker_operation a) (worker_isRunning a) (hc_running a)
        (detailed_check_counter a) (services_confirmed_healthy a) (trace a).

Definition set_last_health_status (s : gmap string bool) (a : App) : App :=
  mkApp (services_running a) (processes a) (start_time a) s
        (worker_operation a) (worker_isRunning a) (hc_running a)
        (detailed_check_counter a) (services_confirmed_healthy a) (trace a).

Definition set_worker (op : option Operation) (r : bool) (a : App) : App :=
  mkApp (services_running a) (processes a) (start_time a)
        (last_health_status a) op r (hc_running a)
        (detailed_check_counter a) (services_confirmed_healthy a) (trace a).

Definition set_hc_running (b : bool) (a : App) : App :=
  mkApp (services_running a) (processes a) (start_time a)
        (last_health_status a) (worker_operation a) (worker_isRunning a) b
        (detailed_check_counter a) (services_confirmed_healthy a) (trace a).

Definition set_counter (c : Z) (a : App) : App :=
  mkApp (services_running a) (processes a) (start_time a)
        (last_health_status a) (worker_operation a) (worker_isRunning a)
        (hc_running a) c (services_confirmed_healthy a) (trace a).

Definition set_confirmed (c : gmap string Z) (a : App) : App :=
  mkApp (services_running a) (processes a) (start_time a)
        (last_health_status a) (worker_operation a) (worker_isRunning a)
        (hc_running a) (detailed_check_counter a) c (trace a).

Definition set_trace (t : list Event) (a : App) : App :=
  mkApp (services_running a) (processes a) (start_time a)
        (last_health_status a) (worker_operation a) (worker_isRunning a)
        (hc_running a) (detailed_check_counter a)
        (services_confirmed_healthy a) t.

(** ** A state-and-exception monad

    State changes made before an exception are kept, as in Python. *)
Inductive Result (A : Type) : Type :=
| Ok (a : A)
| Raise (e : Exn).
Arguments Ok {A} a.
Arguments Raise {A} e.

Definition M (A : Type) : Type := App -> Result A * App.

Definition ret {A} (a : A) : M A := fun s => (Ok a, s).

Definition bind {A B} (m : M A) (k : A -> M B) : M B :=
  fun s => match m s with
           | (Ok a, s') => k a s'
           | (Raise e, s') => (Raise e, s')
           end.

Definition raise {A} (e : Exn) : M A := fun s => (Raise e, s).

(** [try: m except Exception: h] *)
Definition try_except {A} (m : M A) (h : Exn -> M A) : M A :=
  fun s => match m s with
           | (Ok a, s') => (Ok a, s')
           | (Raise e, s') => h e s'
           end.

Definition get : M App := fun s => (Ok s, s).
Definition modify (f : App -> App) : M unit := fun s => (Ok tt, f s).
Definition emit (e : Event) : M unit :=
  modify (fun s => set_trace (trace s ++ [e]) s).

Notation "x <- c1 ;; c2" := (bind c1 (fun x => c2))
  (at level 100, c1 at next level, right associativity).
Notation "c1 ;; c2" := (bind c1 (fun _ => c2))
  (at level 100, right associativity).

(** [for x in l: body x] *)
Fixpoint for_each {A} (l : list A) (body : A -> M unit) : M unit :=
  match l with
  | [] => ret tt
  | x :: l' => body x ;; for_each l' body
  end.

(** A loop that threads a local variable through its body. *)
Fixpoint fold_each {A S} (l : list A) (body : S -> A -> M S) (acc : S)
  : M S :=
  match l with
  | [] => ret acc
  | x :: l' => acc' <- body acc x ;; fold_each l' body acc'
  end.

Definition gets {A} (f : App -> A) : M A := fun s => (Ok (f s), s).

(** ** Probes ([Gary4JUCEControlCenter], "Health checking methods") *)

(** [add_log]: appends to the log viewer. Called directly from the health
    checker thread and from the entry points; the worker goes through the
    [log_message] signal instead. *)
Definition add_log (w : World) (m : Msg) : M unit :=
  if add_log_raises w m then raise LogError else emit (EvAddLog m).

(** [log_message.emit("system", m)] *)
Definition log_message (m : Msg) : M unit := emit (EvLogMessage m).

(** [check_redis_health]: a client-library ping, then a raw-socket PING;
    every failure inside is caught, so the call yields a boolean. *)
Definition check_redis_health (w : World) (call : nat) : M bool :=
  emit EvCheckRedis ;; ret (redis_health w call).

(** [check_port_listening] *)
Definition check_port_listening (w : World) (port : Z) : M bool :=
  emit (EvCheckPort port) ;; ret (port_listening w port).

(** [check_service_health]: true iff the request completed with code 200. *)
Definition check_service_health (w : World) (port timeout : Z) : M bool :=
  emit (EvHealthGet port timeout) ;;
  ret (match http_get w port timeout with
       | Response c => c =? 200
       | ConnectionError => false
       | Timeout => false
       | OtherError => false
       end).

(** [check_service_health_detailed] *)
Definition check_service_health_detailed (w : World) (port timeout : Z)
  : M Detailed :=
  emit (EvHealthGet port timeout) ;;
  ret (match http_get w port timeout with
       | Response c => mkDetailed true (Some c) "" (c =? 200)
       | ConnectionError => mkDetailed false None "Connection refused" false
       | Timeout => mkDetailed false None "Timeout" false
       | OtherError => mkDetailed false None "Other error" false
       end).

(** ** HealthChecker *)

(** [status.get(name, False)] *)
Definition status_get (status : gmap string bool) (name : string) : bool :=
  default false (status !! name).

(** [name in confirmed and current_time - confirmed[name] < 300] *)
Definition confirmed_recently (confirmed : gmap string Z) (name : string)
    (current_time : Z) : bool :=
  match confirmed !! name with
  | Some t => current_time - t <? 300
  | None => false
  end.

(** [if name in self.services_confirmed_healthy: del ...]; tells whether
    an entry was there. *)
Definition evict (name : string) : M bool :=
  c <- gets services_confirmed_healthy ;;
  match c !! name with
  | Some _ => modify (set_confirmed (delete name c)) ;; ret true
  | None => ret false
  end.

(** Body of the [for name, config in self.parent.services.items()] loop of
    [HealthChecker.run] (lines 274-330); [status] is the local dict. *)
Definition check_service (w : World) (current_time : Z)
    (status : gmap string bool) (item : string * ServiceConfig)
  : M (gmap string bool) :=
  let name := fst item in
  let config := snd item in
  s <- get ;;
  if services_running s && dict_mem name (processes s) then
    match dict_get name (processes s) with
    | None => raise KeyError
    | Some process =>
        match poll w (pid process) with
        | None =>
            (* process is running *)
            if confirmed_recently (services_confirmed_healthy s) name
                 current_time
            then
              b <- check_port_listening w (cfg_port config) ;;
              ret (<[name := b]> status)
            else
              let timeout := if String.eqb name "gary" then 10 else 3 in
              health_ok <-
                (if detailed_check_counter s mod 20 =? 0 then
                   detailed <- check_service_health_detailed w
                                 (cfg_port config) timeout ;;
                   emit (EvDetailedHealth name detailed) ;;
                   ret (d_healthy detailed)
                 else check_service_health w (cfg_port config) timeout) ;;
              if health_ok : bool then
                modify (fun a =>
                  set_confirmed
                    (<[name := current_time]> (services_confirmed_healthy a))
                    a) ;;
                c <- gets services_confirmed_healthy ;;
                (if negb (bool_decide (is_Some (c !! name)))
                    || (300 <? current_time - default 0 (c !! name))
                 then add_log w (MsgIsHealthy (cfg_name config))
                 else ret tt) ;;
                ret (<[name := true]> status)
              else
                was <- evict name ;;
                (if was : bool
                 then add_log w (MsgHealthCheckFailed (cfg_name config))
                 else ret tt) ;;
                b <- check_port_listening w (cfg_port config) ;;
                ret (<[name := b]> status)
        | Some exit_code =>
            (* process died *)
            evict name ;;
            add_log w (MsgProcessDied (cfg_name config) exit_code) ;;
            (if exit_code =? 3221225477
             then add_log w MsgAccessViolation
             else ret tt) ;;
            ret (<[name := false]> status)
        end
    end
  else
    (* not supposed to be running *)
    evict name ;;
    ret (<[name := false]> status).

(** "Adaptive sleep timing" (lines 335-346). *)
Definition sleep_time (w : World) (status : gmap string bool)
    (confirmed : gmap string Z) : Z :=
  let all_services_healthy :=
    forallb (status_get status) (dict_keys (services w)) in
  if all_services_healthy
     && bool_decide (size confirmed = length (services w))
  then 15
  else if existsb (status_get status) (dict_keys (services w)) then 8
  else 3.

(** One pass of the [try] block up to the sleep: probes everything,
    publishes the snapshot, answers the snapshot and the next interval. *)
Definition cycle (w : World) : M (gmap string bool * Z) :=
  let current_time := time_now w in
  r <- check_redis_health w 0 ;;
  status <- fold_each (services w) (check_service w current_time)
              (<["redis" := r]> ∅) ;;
  modify (fun a => set_counter (detailed_check_counter a + 1) a) ;;
  emit (EvHealthStatus status) ;;
  c <- gets services_confirmed_healthy ;;
  ret (status, sleep_time w status c).

(** [HealthChecker.stop], called from another thread. *)
Definition stop : M unit := modify (set_hc_running false).

(** "Sleep in small increments": [for _ in range(sleep_time * 10)].
    [stop_at = Some k] says that another thread calls [stop] just before
    the check of slice [k] (or, past the last slice, before the [while]
    test). *)
Fixpoint sleep_loop (slices : nat) (j : nat) (stop_at : option nat)
  : M unit :=
  match slices with
  | O => match stop_at with Some _ => stop | None => ret tt end
  | S n =>
      (if bool_decide (stop_at = Some j) then stop else ret tt) ;;
      s <- get ;;
      if negb (hc_running s) then ret tt
      else emit (EvSleep 100) ;;
           sleep_loop n (S j)
             (if bool_decide (stop_at = Some j) then None else stop_at)
  end.

(** Why [HealthChecker.run] returned. *)
Inductive Exit : Type :=
| ExitStopFlag              (* the [while self.running] test failed *)
| ExitBreak (e : Exn)       (* the [except] branch logged and broke out *)
| ExitUncaught (e : Exn)    (* the [except] branch itself raised *)
| ExitFuel.                 (* still looping *)

(** [HealthChecker.run]. Cycle [i] sees the world [env i]; [stops i] is the
    moment of an external [stop] during the sleep of cycle [i]. The guard
    [if self.parent] of the [except] branch always holds: the parent is the
    main window object. *)
Fixpoint run (fuel : nat) (env : nat -> World) (stops : nat -> option nat)
    (i : nat) (s : App) : Exit * App :=
  if negb (hc_running s) then (ExitStopFlag, s)
  else
    match fuel with
    | O => (ExitFuel, s)
    | S f =>
        match (r <- cycle (env i) ;;
               sleep_loop (Z.to_nat (snd r * 10)) 0 (stops i)) s with
        | (Ok _, s') => run f env stops (S i) s'
        | (Raise e, s') =>
            match add_log (env i) MsgHealthCheckError s' with
            | (Ok _, s'') => (ExitBreak e, s'')
            | (Raise e', s'') => (ExitUncaught e', s'')
            end
        end
    end.

(** ** ServiceWorker *)

(** [a / b] on [pathlib.Path]. *)
Definition path_join (a b : string) : string := a +:+ "/" +:+ b.
Infix "//" := path_join (at level 40, left associativity).

(** [s.split('\n')] *)
Fixpoint split_lines_aux (s : string) (cur : string) : list string :=
  match s with
  | EmptyString => [cur]
  | String c s' =>
      if Ascii.eqb c "010"%char then cur :: split_lines_aux s' ""
      else split_lines_aux s' (cur +:+ String c EmptyString)
  end.
Definition split_lines (s : string) : list string := split_lines_aux s "".

(** [subprocess.Popen(argv, cwd=..., env=...)] *)
Definition Popen_call (w : World) (name : string) (argv : list string)
    (cwd : string) (env : gmap string string) : M Popen :=
  emit (EvPopen name argv cwd env) ;;
  match popen w name with
  | Some p => ret p
  | None => raise OSError
  end.

(** [self.parent.processes[name] = process] *)
Definition register (name : string) (p : Popen) : M unit :=
  modify (fun a => set_processes (dict_set name p (processes a)) a).

Definition max_retries : Z := 5.

(** "Test Redis connection": [for attempt in range(max_retries)]. *)
Fixpoint wait_for_redis (w : World) (remaining attempt : nat) : M unit :=
  match remaining with
  | O => ret tt
  | S n =>
      ok <- check_redis_health w attempt ;;
      if ok : bool then log_message MsgRedisResponding
      else if Z.of_nat attempt <? max_retries - 1 then
        log_message (MsgWaitingRedis (Z.of_nat attempt + 1) max_retries) ;;
        emit (EvSleep 2000) ;;
        wait_for_redis w n (S attempt)
      else
        log_message MsgRedisNotResponding ;;
        wait_for_redis w n (S attempt)
  end.

(** The environment handed to a service: inherited, then the [.env] file,
    then the per-service overrides, then the encoding overrides. *)
Definition load_env (w : World) : gmap string string :=
  if path_exists w (base_dir w // ".env")
  then dotenv_values w ∪ os_environ w
  else os_environ w.

Definition service_env (name : string) (env_vars : gmap string string)
  : gmap string string :=
  let e :=
    if String.eqb name "melodyflow"
    then <["FLASH_ATTENTION_DISABLED" := "1"]>
           (<["XFORMERS_DISABLED" := "1"]> env_vars)
    else env_vars in
  <["PYTHONLEGACYWINDOWSSTDIO" := "1"]> (<["PYTHONIOENCODING" := "utf-8"]> e).

Definition debug_log (w : World) (name : string) : string :=
  base_dir w // (name +:+ "_debug.log").

(** What follows a successful launch (lines 168-197): register the handle,
    let the process settle, report an immediate exit. *)
Definition report_launch (w : World) (name : string) (config : ServiceConfig)
    (process : Popen) : M unit :=
  let log_file := debug_log w name in
  register name process ;;
  log_message (MsgServiceStarted (cfg_name config) (pid process)) ;;
  log_message (MsgDebugLog log_file) ;;
  emit (EvSleep 3000) ;;
  match poll w (pid process) with
  | Some exit_code =>
      log_message (MsgServiceDiedImmediately (cfg_name config) exit_code) ;;
      try_except
        (match read_stripped w log_file with
         | None => raise OSError
         | Some error_output =>
             if String.eqb error_output "" then
               log_message MsgNoErrorOutput
             else
               for_each (take 5 (split_lines error_output))
                 (fun line => log_message (MsgErrorLine line))
         end)
        (fun _ => log_message MsgCouldNotReadLog) ;;
      if exit_code =? 3221225477
      then log_message MsgAccessViolationStart
      else ret tt
  | None => log_message (MsgRunningSuccessfully (cfg_name config))
  end.

(** [python_exe.exists() and script_path.exists()] for a service. *)
Definition files_exist (w : World) (config : ServiceConfig) : bool :=
  path_exists w (cfg_dir config // "env" // "Scripts" // "python.exe")
  && path_exists w (cfg_dir config // cfg_script config).

(** Body of "Start each service" (lines 134-200). *)
Definition launch_service (w : World) (env_vars : gmap string string)
    (item : string * ServiceConfig) : M unit :=
  let name := fst item in
  let config := snd item in
  let python_exe := cfg_dir config // "env" // "Scripts" // "python.exe" in
  let script_path := cfg_dir config // cfg_script config in
  if negb (files_exist w config) then
    log_message (MsgFilesNotFound (cfg_name config)
                   (path_exists w python_exe) (path_exists w script_path))
  else
    log_message (MsgStartingService (cfg_name config) (cfg_port config)) ;;
    try_except
      (process <- Popen_call w name [python_exe; script_path]
                    (cfg_dir config) (service_env name env_vars) ;;
       report_launch w name config process)
      (fun _ => log_message (MsgFailedToStart (cfg_name config))).

(** Launch of the Redis dependency (lines 79-125); answers whether the
    sequence goes on to the services. *)
Definition start_redis (w : World) : M bool :=
  try_except
    (log_message MsgRedisDefaultConfig ;;
     redis_process <- Popen_call w "redis"
                        [base_dir w // "redis" // "redis-server.exe"]
                        (base_dir w // "redis") (os_environ w) ;;
     register "redis" redis_process ;;
     log_message (MsgRedisStarted (pid redis_process)) ;;
     emit (EvSleep 3000) ;;
     match poll w (pid redis_process) with
     | Some exit_code =>
         log_message (MsgRedisDied exit_code) ;;
         log_message MsgRedisHint ;;
         ret false
     | None =>
         wait_for_redis w (Z.to_nat max_retries) 0 ;;
         ret true
     end)
    (fun _ => log_message MsgRedisFailed ;; ret false).

(** The [try] block of [_start_services] (lines 70-211): Redis first, then
    every configured service. *)
Definition start_sequence (w : World) : M unit :=
  try_except
    (if negb (path_exists w (base_dir w // "redis" // "redis-server.exe"))
     then log_message MsgRedisNotFound
     else
       log_message MsgStartingRedis ;;
       proceed <- start_redis w ;;
       if proceed : bool then
         for_each (services w) (launch_service w (load_env w)) ;;
         log_message MsgAllStarted ;;
         log_message MsgMayTakeAMoment ;;
         log_message MsgCheckDebugLogs ;;
         for_each (dict_keys (services w))
           (fun name => log_message (MsgLogFile (debug_log w name))) ;;
         emit EvServicesStarted
       else ret tt)
    (fun _ => log_message MsgErrorStarting).

(** [ServiceWorker._start_services] *)
Definition _start_services (w : World) : M unit :=
  s <- get ;;
  if services_running s then ret tt
  else
    log_message MsgStartingBackend ;;
    modify (set_services_running true) ;;
    modify (set_start_time (Some (time_now w))) ;;
    emit EvStatusChanged ;;
    start_sequence w.

(** [process.terminate()] *)
Definition terminate (w : World) (p : Popen) : M unit :=
  emit (EvTerminate (pid p)) ;;
  if terminate_raises w (pid p) then raise ProcessError else ret tt.

(** Body of "Stop processes" (lines 221-234). *)
Definition stop_process (w : World) (item : string * Popen) : M unit :=
  let name := fst item in
  let process := snd item in
  match poll w (pid process) with
  | Some _ => ret tt
  | None =>
      try_except
        (let config_name :=
           match dict_get name (services w) with
           | Some config => cfg_name config
           | None => name
           end in
         terminate w process ;;
         emit (EvWait (pid process) 5) ;;
         match wait_after_terminate w (pid process) with
         | Exited => log_message (MsgStopped config_name)
         | TimeoutExpired =>
             emit (EvKill (pid process)) ;;
             emit (EvWait (pid process) 2) ;;
             match wait_after_kill w (pid process) with
             | Exited => log_message (MsgForceStopped config_name)
             | TimeoutExpired => raise ProcessError
             | WaitError => raise ProcessError
             end
         | WaitError => raise ProcessError
         end)
        (fun _ => log_message (MsgErrorStopping name))
  end.

(** [ServiceWorker._stop_services] *)
Definition _stop_services (w : World) : M unit :=
  s <- get ;;
  if negb (services_running s) then ret tt
  else
    log_message MsgStoppingAll ;;
    for_each (processes s) (stop_process w) ;;
    try_except
      (emit EvTaskkillRedis ;;
       (if taskkill_raises w then raise OSError else ret tt) ;;
       log_message MsgStoppedRedis)
      (fun _ => ret tt) ;;
    modify (set_processes []) ;;
    modify (set_services_running false) ;;
    modify (set_start_time None) ;;
    log_message MsgAllStopped ;;
    emit EvServicesStopped.

(** [ServiceWorker.run] *)
Definition worker_run (w : World) : M unit :=
  s <- get ;;
  match worker_operation s with
  | Some OpStart => _start_services w
  | Some OpStop => _stop_services w
  | None => ret tt
  end.

(** The worker thread from [QThread.start] to its end: [isRunning()] holds
    throughout and falls when [run] returns. *)
Definition worker_thread (w : World) : M unit :=
  try_except (worker_run w) (fun _ => ret tt) ;;
  modify (fun a => set_worker (worker_operation a) false a).

(** [ServiceWorker.start_services] / [ServiceWorker.stop_services]: queue
    the operation and start the thread. *)
Definition queue_operation (op : Operation) : M unit :=
  modify (set_worker (Some op) true) ;;
  emit (EvWorkerStart op).

(** ** Gary4JUCEControlCenter: entry points and status aggregation *)

(** [Gary4JUCEControlCenter.start_services] *)
Definition start_services (w : World) : M unit :=
  s <- get ;;
  if services_running s || worker_isRunning s then ret tt
  else
    emit (EvStartBtnEnabled false) ;;
    add_log w MsgStartingServices ;;
    queue_operation OpStart.

(** [Gary4JUCEControlCenter.stop_services] *)
Definition stop_services (w : World) : M unit :=
  s <- get ;;
  if negb (services_running s) || worker_isRunning s then ret tt
  else
    emit (EvStopBtnEnabled false) ;;
    add_log w MsgStoppingServices ;;
    queue_operation OpStop.

(** [on_health_status_update]: the published snapshot replaces the last. *)
Definition on_health_status_update (status : gmap string bool) : M unit :=
  modify (set_last_health_status status).

(** A counting loop: [n = 0; for x in l: if f x: n += 1]. *)
Fixpoint count_if {A} (f : A -> bool) (l : list A) : nat :=
  match l with
  | [] => O
  | x :: l' => if f x then S (count_if f l') else count_if f l'
  end.

(** [process and process.poll() is None] *)
Definition alive (w : World) (p : Popen) : bool :=
  match poll w (pid p) with None => true | Some _ => false end.

(** [get_system_status] (lines 1307-1350). *)
Definition get_system_status (w : World) (s : App) : DisplayState :=
  if negb (services_running s) then stopped
  else
    let dead_processes :=
      count_if (fun np => negb (String.eqb (fst np) "redis")
                          && negb (alive w (snd np)))
        (processes s) in
    if (0 <? Z.of_nat dead_processes) then error
    else
      let healthy_count :=
        count_if
          (fun nc =>
             match dict_get (fst nc) (processes s) with
             | Some process =>
                 alive w process
                 && (status_get (last_health_status s) (fst nc)
                     || port_listening w (cfg_port (snd nc)))
             | None => false
             end)
          (services w) in
      let total_services := length (services w) in
      let redis_healthy :=
        if status_get (last_health_status s) "redis" then true
        else port_listening w 6379 in
      if bool_decide (healthy_count = total_services) && redis_healthy
      then running
      else if (0 <? Z.of_nat healthy_count) || redis_healthy then starting
      else error.

(** State given to the widget of one service by
    [update_status_indicators] (lines 1064-1087). *)
Definition service_status (w : World) (s : App)
    (item : string * ServiceConfig) : DisplayState :=
  let name := fst item in
  if negb (services_running s) then stopped
  else
    match dict_get name (processes s) with
    | None => error
    | Some process =>
        if negb (alive w process) then error
        else
          let service_healthy := status_get (last_health_status s) name in
          if String.eqb name "gary" && negb service_healthy then
            if port_listening w (cfg_port (snd item)) then starting
            else error
          else if service_healthy then running
          else starting
    end.

(** [update_status_indicators]: the state shown for Redis and for each
    service, in widget order. *)
Definition update_status_indicators (w : World) (s : App)
  : list (string * DisplayState) :=
  ("redis",
   if negb (services_running s) then stopped
   else if status_get (last_health_status s) "redis" then running
   else error)
  :: map (fun item => (fst item, service_status w s item)) (services w).

(** The two [setEnabled] calls that end [update_status_indicators]
    (lines 1089-1094): the start button, then the stop button. *)
Definition buttons_enabled (s : App) : bool * bool :=
  (negb (services_running s) && negb (worker_isRunning s),
   services_running s && negb (worker_isRunning s)).

(** ** The dependency probe in detail

    [check_redis_health] (lines 1200-1249), whose answer the monitor and
    the start sequence consume through the oracle [redis_health]. Besides
    the port probe it asks the network two things. *)
Record RedisNet : Type := mkRedisNet {
  (** [import redis] succeeds. *)
  redis_module : bool;
  (** [redis.Redis(host, port, db=0, ...).ping()]; [None] when it raises. *)
  redis_ping : string -> Z -> option bool;
  (** Connect to the port, send [PING], receive up to 1024 bytes; [None]
      when any of it raises. *)
  raw_reply : Z -> option string
}.

(** [needle in hay] on byte strings. *)
Fixpoint contains (needle hay : string) : bool :=
  String.prefix needle hay
  || match hay with
     | String _ hay' => contains needle hay'
     | EmptyString => false
     end.

Definition redis_configs : list (string * Z) :=
  [("localhost", 6379); ("127.0.0.1", 6379); ("localhost", 6380)].

Definition ports_to_try : list Z := [6379; 6380].

(** [for config in redis_configs]: the first truthy ping returns. *)
Fixpoint ping_configs (net : RedisNet) (l : list (string * Z)) : bool :=
  match l with
  | [] => false
  | (host, port) :: l' =>
      match redis_ping net host port with
      | Some true => true
      | Some false => ping_configs net l'
      | None => ping_configs net l'
      end
  end.

(** [for port in ports_to_try]: the raw-socket fallback. *)
Fixpoint probe_ports (w : World) (net : RedisNet) (l : list Z) : M bool :=
  match l with
  | [] => ret false
  | port :: l' =>
      listening <- check_port_listening w port ;;
      if listening : bool then
        match raw_reply net port with
        | Some response =>
            if contains "+PONG" response then ret true
            else probe_ports w net l'
        | None => probe_ports w net l'
        end
      else probe_ports w net l'
  end.

Definition check_redis_health_body (w : World) (net : RedisNet) : M bool :=
  if redis_module net && ping_configs net redis_configs then ret true
  else probe_ports w net ports_to_try.

(** ** The shipped configuration and some concrete worlds *)

(** [self.services] as built in [__init__]. *)
Definition default_services : list (string * ServiceConfig) :=
  [ ("gary", mkConfig "services/gary" "g4l_localhost.py" 8000 "gary main");
    ("melodyflow",
     mkConfig "services/melodyflow" "localhost_melodyflow.py" 8002
       "terry (melodyflow)");
    ("stable-audio",
     mkConfig "services/stable-audio" "api.py" 8005
       "jerry (stable audio open small)") ].

(** The attributes right after [__init__] and [HealthChecker.__init__]. *)
Definition initial : App :=
  mkApp false [] None ∅ None false true 0 ∅ [].

Definition pid_of (name : string) : Z :=
  if String.eqb name "redis" then 100
  else if String.eqb name "gary" then 101
  else if String.eqb name "melodyflow" then 102
  else 103.

(** A machine described by what exists on disk, what Redis answers, which
    ports listen, what the health endpoints answer, which processes have
    exited and which log lines fail; every launch succeeds. *)
Definition machine (paths : string -> bool) (redis : nat -> bool)
    (ports : Z -> bool) (http : Z -> Z -> HttpOutcome)
    (exit_codes : Z -> option Z) (log_fails : Msg -> bool) : World :=
  {| services := default_services;
     base_dir := "app";
     time_now := 1000;
     redis_health := redis;
     port_listening := ports;
     http_get := http;
     poll := exit_codes;
     add_log_raises := log_fails;
     path_exists := paths;
     popen := fun name => Some (mkPopen (pid_of name));
     os_environ := ∅;
     dotenv_values := ∅;
     read_stripped := fun _ => Some "";
     terminate_raises := fun _ => false;
     wait_after_terminate := fun _ => Exited;
     wait_after_kill := fun _ => Exited;
     taskkill_raises := false |}.

(** Everything is installed and launches, every process stays alive, but
    nothing answers on any port. *)
Definition silent_world : World :=
  machine (fun _ => true) (fun _ => false) (fun _ => false)
    (fun _ _ => ConnectionError) (fun _ => None) (fun _ => false).

(** Nothing is installed: [redis-server.exe] is missing. *)
Definition bare_world : World :=
  machine (fun _ => false) (fun _ => false) (fun _ => false)
    (fun _ _ => ConnectionError) (fun _ => None) (fun _ => false).

(** Every service listens on its port but answers 503 on [/health]
    (busy); Redis is fine. *)
Definition busy_world : World :=
  machine (fun _ => true) (fun _ => true) (fun _ => true)
    (fun _ _ => Response 503) (fun _ => None) (fun _ => false).

(** All services answer 200, but Redis is gone: no ping, port closed. *)
Definition redis_down_world : World :=
  machine (fun _ => true) (fun _ => false)
    (fun port => negb (port =? 6379) && negb (port =? 6380))
    (fun _ _ => Response 200) (fun _ => None) (fun _ => false).

(** The process of gary (pid 101) has exited with code 1 and the log
    viewer rejects the line that reports it. *)
Definition crash_world : World :=
  machine (fun _ => true) (fun _ => true) (fun _ => true)
    (fun _ _ => Response 200)
    (fun p => if p =? 101 then Some 1 else None)
    (fun m => match m with MsgProcessDied _ _ => true | _ => false end).

Definition all_registered : list (string * Popen) :=
  [ ("redis", mkPopen 100); ("gary", mkPopen 101);
    ("melodyflow", mkPopen 102); ("stable-audio", mkPopen 103) ].

(** The control center once a start has completed. *)
Definition started : App :=
  mkApp true all_registered (Some 1000) ∅ None false true 1 ∅ [].

(** The log lines sent so far, through the signal or directly. *)
Definition logged (s : App) : list Msg :=
  omap (fun e => match e with
                 | EvLogMessage m => Some m
                 | EvAddLog m => Some m
                 | _ => None
                 end) (trace s).

(** The processes launched so far, by name. *)
Definition launched (s : App) : list string :=
  omap (fun e => match e with
                 | EvPopen name _ _ _ => Some name
                 | _ => None
                 end) (trace s).


(** A start is in flight on a freshly opened control center. *)
Definition start_in_flight : App :=
  snd (start_services silent_world initial).

(** gary is up and listening but answers 503: the last snapshot has it
    unhealthy. *)
Definition gary_busy : App :=
  set_last_health_status (<["gary" := false]> ∅) started.

(** Every service is healthy in the last snapshot; Redis is not. *)
Definition services_up_redis_down : App :=
  set_last_health_status
    (<["stable-audio" := true]>
       (<["melodyflow" := true]>
          (<["gary" := true]> (<["redis" := false]> ∅))))
    started.

(** gary was confirmed healthy one second ago, but no handle is registered
    for it any more (its entry was removed by [stop_service]). *)
Definition stale_gary : App :=
  mkApp true
    [("redis", mkPopen 100); ("melodyflow", mkPopen 102);
     ("stable-audio", mkPopen 103)]
    (Some 900) ∅ None false true 1 (<["gary" := 999]> ∅) [].

(** Everything was confirmed healthy a second ago, then the services were
    stopped. *)
Definition just_stopped : App :=
  mkApp false [] None ∅ None false true 1
    (<["stable-audio" := 999]> (<["melodyflow" := 999]> (<["gary" := 999]> ∅)))
    [].

(** gary (pid 101) is registered, melodyflow is not, and melodyflow was
    confirmed healthy a second ago. *)
Definition melodyflow_stale : App :=
  mkApp true
    [("redis", mkPopen 100); ("gary", mkPopen 101);
     ("stable-audio", mkPopen 103)]
    (Some 900) ∅ None false true 1 (<["melodyflow" := 999]> ∅) [].

(** ** Notions used to state the properties *)

(** [keeps R m]: whatever [m] answers, also by an exception, the state it
    leaves is [R]-related to the state it started from. *)
Definition keeps {A} (R : relation App) (m : M A) : Prop :=
  forall s, R s (snd (m s)).

(** The part of the state selected by [f] is left as it was. *)
Definition same_on {X} (f : App -> X) : relation App :=
  fun s s' => f s' = f s.

(** The registry never holds two handles under one identifier. *)
Definition registry_ok : relation App :=
  fun s s' => NoDup (dict_keys (processes s)) ->
              NoDup (dict_keys (processes s')).

(** Fields of the control center that the start sequence, once past its
    first lines, leaves alone. *)
Definition flag_and_time (s : App) : bool * option Z :=
  (services_running s, start_time s).

(** Step 1 of the start sequence as the specification words it: the
    dependency is launched and its liveness is confirmed within the
    bounded retries. *)
Definition step1_succeeded (w : World) : bool :=
  path_exists w (base_dir w // "redis" // "redis-server.exe")
  && match popen w "redis" with
     | Some p =>
         alive w p && existsb (redis_health w) (seq 0 (Z.to_nat max_retries))
     | None => false
     end.

(** "healthy-or-port-listening" *)
Definition healthy_or_listening (w : World) (s : App)
    (item : string * ServiceConfig) : bool :=
  status_get (last_health_status s) (fst item)
  || port_listening w (cfg_port (snd item)).

(** "any tracked non-dependency process has exited" *)
Definition some_service_exited (w : World) (s : App) : bool :=
  existsb (fun np => negb (String.eqb (fst np) "redis")
                     && negb (alive w (snd np)))
    (processes s).

(** The overall state in the words of the specification: the fraction is
    taken over the configured services that are healthy-or-port-listening,
    and [starting] needs a fraction strictly between 0 and 100%, or a
    healthy dependency. *)
Definition overall_state_claimed (w : World) (s : App) : DisplayState :=
  if negb (services_running s) then stopped
  else if some_service_exited w s then error
  else
    let n := length (List.filter (healthy_or_listening w s) (services w)) in
    let total := length (services w) in
    let dependency := status_get (last_health_status s) "redis" in
    if Nat.eqb n total && dependency then running
    else if (Nat.ltb 0 n && Nat.ltb n total) || dependency then starting
    else error.

(** The overall state as the code derives it: a service counts when its
    handle is registered and alive and it is healthy-or-port-listening; the
    dependency counts as healthy when its snapshot entry is true or port
    6379 listens; [starting] needs one counted service or a healthy
    dependency. *)
Definition overall_state_amended (w : World) (s : App) : DisplayState :=
  if negb (services_running s) then stopped
  else if some_service_exited w s then error
  else
    let counted item :=
      match dict_get (fst item) (processes s) with
      | Some process => alive w process && healthy_or_listening w s item
      | None => false
      end in
    let n := length (List.filter counted (services w)) in
    let total := length (services w) in
    let dependency :=
      status_get (last_health_status s) "redis" || port_listening w 6379 in
    if Nat.eqb n total && dependency then running
    else if Nat.ltb 0 n || dependency then starting
    else error.

(** A service without a live handle: none registered, or the registered
    process has exited. *)
Definition no_live_handle (w : World) (s : App) (name : string) : bool :=
  match dict_get name (processes s) with
  | Some process => negb (alive w process)
  | None => true
  end.

(** The trace only grows. *)
Definition trace_extends : relation App :=
  fun s s' => exists t, trace s' = (trace s ++ t)%list.

(** The state in which [_start_services] enters its [try] block. *)
Definition start_entered (w : World) (s : App) : App :=
  set_trace (trace s ++ [EvLogMessage MsgStartingBackend; EvStatusChanged])
    (set_start_time (Some (time_now w)) (set_services_running true s)).

(** The snapshot and the next interval answered by a cycle. *)
Definition published (r : Result (gmap string bool * Z)) : gmap string bool :=
  match r with Ok (status, _) => status | Raise _ => ∅ end.

Definition next_interval (r : Result (gmap string bool * Z)) : Z :=
  match r with Ok (_, interval) => interval | Raise _ => 0 end.

(** ** Projections of the trace *)

(** Processes asked to terminate, and processes killed, in order. *)
Definition sent_terminate (e : Event) : option Z :=
  match e with EvTerminate p => Some p | _ => None end.

Definition sent_kill (e : Event) : option Z :=
  match e with EvKill p => Some p | _ => None end.

Definition terminated (s : App) : list Z := omap sent_terminate (trace s).
Definition killed (s : App) : list Z := omap sent_kill (trace s).

(** A live process whose graceful stop timed out. *)
Definition needs_kill (w : World) (p : Popen) : bool :=
  alive w p
  && negb (terminate_raises w (pid p))
  && match wait_after_terminate w (pid p) with
     | TimeoutExpired => true
     | Exited => false
     | WaitError => false
     end.

(** A world that differs from [w] in how processes react to being
    stopped. *)
Definition with_waits (w : World) (raises : Z -> bool)
    (after_terminate after_kill : Z -> WaitOutcome) (taskkill : bool)
  : World :=
  {| services := services w;
     base_dir := base_dir w;
     time_now := time_now w;
     redis_health := redis_health w;
     port_listening := port_listening w;
     http_get := http_get w;
     poll := poll w;
     add_log_raises := add_log_raises w;
     path_exists := path_exists w;
     popen := popen w;
     os_environ := os_environ w;
     dotenv_values := dotenv_values w;
     read_stripped := read_stripped w;
     terminate_raises := raises;
     wait_after_terminate := after_terminate;
     wait_after_kill := after_kill;
     taskkill_raises := taskkill |}.

(** gary (pid 101) ignores the terminate request, terminating
    stable-audio (pid 103) raises, and [taskkill] is not available. *)
Definition stubborn_world : World :=
  with_waits busy_world (fun p => p =? 103)
    (fun p => if p =? 101 then TimeoutExpired else Exited)
    (fun _ => Exited) true.

(** [only_emits P m]: whatever [m] answers, it leaves the earlier trace
    in place and every effect it adds satisfies [P]. *)
Definition only_emits {A} (P : Event -> Prop) (m : M A) : Prop :=
  forall s, exists t, trace (snd (m s)) = (trace s ++ t)%list /\ Forall P t.

(** The program a [Popen] event launches. *)
Definition sent_popen (e : Event) : option string :=
  match e with EvPopen name _ _ _ => Some name | _ => None end.

(** Redis can be started: the launch succeeds and the process survives the
    settle delay. *)
Definition redis_up (w : World) : bool :=
  match popen w "redis" with
  | Some rp => alive w rp
  | None => false
  end.

(** The configured services whose interpreter and script exist, in
    declaration order. *)
Definition launchable (w : World) : list string :=
  map fst (List.filter (fun item => files_exist w (snd item)) (services w)).

(** The melodyflow service was never installed; the rest is in place and
    healthy. *)
Definition partial_world : World :=
  machine (fun path => negb (String.prefix "services/melodyflow" path))
    (fun _ => true) (fun _ => true) (fun _ _ => Response 200)
    (fun _ => None) (fun _ => false).

(** Redis (pid 100) exits during its settle delay. *)
Definition redis_dies_world : World :=
  machine (fun _ => true) (fun _ => false) (fun _ => false)
    (fun _ _ => ConnectionError)
    (fun p => if p =? 100 then Some 1 else None) (fun _ => false).

(** The environment a service inherits where nothing overrides it: the
    [.env] file first, then the environment of the launcher. *)
Definition inherited (w : World) (k : string) : option string :=
  if path_exists w (base_dir w // ".env") then
    match dotenv_values w !! k with
    | Some v => Some v
    | None => os_environ w !! k
    end
  else os_environ w !! k.

(** A launcher environment and a [.env] file that both set the encoding
    and an acceleration switch. *)
Definition env_world : World :=
  {| services := default_services;
     base_dir := "app";
     time_now := 1000;
     redis_health := fun _ => true;
     port_listening := fun _ => true;
     http_get := fun _ _ => Response 200;
     poll := fun _ => None;
     add_log_raises := fun _ => false;
     path_exists := fun _ => true;
     popen := fun name => Some (mkPopen (pid_of name));
     os_environ :=
       <["PATH" := "C:/Windows"]>
         (<["PYTHONIOENCODING" := "cp1252"]> (<["HF_HOME" := "C:/hf"]> ∅));
     dotenv_values :=
       <["HF_HOME" := "D:/models"]> (<["XFORMERS_DISABLED" := "0"]> ∅);
     read_stripped := fun _ => Some "";
     terminate_raises := fun _ => false;
     wait_after_terminate := fun _ => Exited;
     wait_after_kill := fun _ => Exited;
     taskkill_raises := false |}.

(** The service is running and was confirmed healthy less than five
    minutes ago. *)
Definition confirmed_alive (w : World) (s : App)
    (item : string * ServiceConfig) : Prop :=
  exists p t0,
    dict_get (fst item) (processes s) = Some p
    /\ poll w (pid p) = None
    /\ services_confirmed_healthy s !! fst item = Some t0
    /\ time_now w - t0 < 300.

(** The service is running but not freshly confirmed, so that the cycle
    probes its health endpoint. *)
Definition unconfirmed_alive (w : World) (s : App) (name : string) : Prop :=
  services_running s = true
  /\ (exists p, dict_get name (processes s) = Some p
                /\ poll w (pid p) = None)
  /\ confirmed_recently (services_confirmed_healthy s) name (time_now w)
     = false.

(** The health endpoint of the service answers 200 within the timeout the
    monitor grants it. *)
Definition answers_200 (w : World) (item : string * ServiceConfig) : bool :=
  match http_get w (cfg_port (snd item))
          (if String.eqb (fst item) "gary" then 10 else 3) with
  | Response code => code =? 200
  | ConnectionError => false
  | Timeout => false
  | OtherError => false
  end.

(** All services are up and were confirmed a second ago. *)
Definition all_confirmed : App :=
  mkApp true all_registered (Some 900) ∅ None false true 1
    (<["stable-audio" := 999]> (<["melodyflow" := 999]> (<["gary" := 999]> ∅)))
    [].

(** Two states agree on everything the check of one service reads. *)
Definition agree (name : string) (s s0 : App) : Prop :=
  services_running s0 = services_running s
  /\ processes s0 = processes s
  /\ detailed_check_counter s0 = detailed_check_counter s
  /\ services_confirmed_healthy s0 !! name
     = services_confirmed_healthy s !! name.

(** Any effect but the log line that reports a service as healthy. *)
Definition not_healthy_line (e : Event) : Prop :=
  forall display, e ≠ EvAddLog (MsgIsHealthy display).

(** Everything is up and the last snapshot says so. *)
Definition all_healthy : App :=
  set_last_health_status
    (<["stable-audio" := true]>
       (<["melodyflow" := true]>
          (<["gary" := true]> (<["redis" := true]> ∅))))
    started.

(** No client library; a Redis answers on the alternative port 6380. *)
Definition raw_only_net : RedisNet :=
  {| redis_module := false;
     redis_ping := fun _ _ => None;
     raw_reply := fun port => if port =? 6380 then Some "+PONG" else Some "" |}.

(** The port probes made so far. *)
Definition sent_port_probe (e : Event) : option Z :=
  match e with EvCheckPort port => Some port | _ => None end.

Definition port_probes (s : App) : list Z := omap sent_port_probe (trace s).

(** The raw-socket fallback finds a Redis on the port. *)
Definition raw_pong (w : World) (net : RedisNet) (port : Z) : bool :=
  port_listening w port
  && match raw_reply net port with
     | Some response => contains "+PONG" response
     | None => false
     end.

(** Redis probes and sleeps among some effects. *)
Definition is_redis_probe (e : Event) : bool :=
  match e with EvCheckRedis => true | _ => false end.

Definition sent_sleep (e : Event) : option Z :=
  match e with EvSleep ms => Some ms | _ => None end.

(** The first of the bounded attempts at which Redis answers, if any. *)
Definition first_up (w : World) : option nat :=
  List.find (redis_health w) (seq 0 (Z.to_nat max_retries)).

(** Redis answers from the third attempt on. *)
Definition slow_redis_world : World :=
  machine (fun _ => true) (fun n => Nat.leb 2 n) (fun _ => true)
    (fun _ _ => Response 200) (fun _ => None) (fun _ => false).

(** Any effect but the [detailed_health] signal. *)
Definition no_detail (e : Event) : Prop :=
  forall name d, e ≠ EvDetailedHealth name d.

(** The program a [Popen] event launches, with the environment the call
    hands to it. *)
Definition sent_launch (e : Event) : option (string * gmap string string) :=
  match e with EvPopen name _ _ env => Some (name, env) | _ => None end.

(** The launches made so far, each with its environment. *)
Definition launch_envs (s : App) : list (string * gmap string string) :=
  omap sent_launch (trace s).

(** All services are up; their confirmations are exactly 300 seconds old. *)
Definition lapsed : App :=
  mkApp true all_registered (Some 600) ∅ None false true 1
    (<["stable-audio" := 700]> (<["melodyflow" := 700]> (<["gary" := 700]> ∅)))
    [].

(** * Properties *)

(** ** Basic facts about the monad and the dictionaries *)

Lemma dict_get_set_eq {V} (k : string) (v : V) d :
  dict_get k (dict_set k v d) = Some v.
Proof.
  induction d as [|[k' v'] d IH]; simpl.
  - by rewrite String.eqb_refl.
  - destruct (String.eqb k k') eqn:E; simpl; rewrite E; [done | exact IH].
Qed.

Lemma dict_get_set_ne {V} (k k' : string) (v : V) d :
  k ≠ k' -> dict_get k (dict_set k' v d) = dict_get k d.
Proof.
  intros Hne. induction d as [|[k0 v0] d IH]; simpl.
  - destruct (String.eqb_spec k k'); [done | done].
  - destruct (String.eqb_spec k' k0) as [->|Hk]; simpl.
    + destruct (String.eqb_spec k k0); [done | done].
    + destruct (String.eqb_spec k k0); [done | exact IH].
Qed.

Lemma dict_keys_set {V} (k : string) (v : V) d :
  dict_keys (dict_set k v d)
  = if dict_mem k d then dict_keys d else (dict_keys d ++ [k])%list.
Proof.
  unfold dict_mem, dict_keys. induction d as [|[k' v'] d IH]; simpl; [done|].
  destruct (String.eqb_spec k k') as [->|Hk]; simpl; [done|].
  rewrite IH. by destruct (dict_get k d).
Qed.

Lemma dict_get_None_keys {V} (k : string) (d : list (string * V)) :
  dict_get k d = None -> k ∉ dict_keys d.
Proof.
  unfold dict_keys. induction d as [|[k' v'] d IH]; simpl.
  - intros _. apply not_elem_of_nil.
  - destruct (String.eqb_spec k k') as [->|Hk]; [done|].
    intros H. apply not_elem_of_cons. split; [done | by apply IH].
Qed.

Lemma dict_set_NoDup {V} (k : string) (v : V) d :
  NoDup (dict_keys d) -> NoDup (dict_keys (dict_set k v d)).
Proof.
  intros Hd. rewrite dict_keys_set. unfold dict_mem.
  destruct (dict_get k d) eqn:E; [done|].
  apply NoDup_app. split; [done|]. split.
  - intros x Hx Hx'. apply list_elem_of_singleton in Hx' as ->.
    by apply dict_get_None_keys in E.
  - apply NoDup_singleton.
Qed.

(** ** State relations kept by an operation *)

Section Keeps.
Context (R : relation App) `{!PreOrder R}.
Hypothesis R_emit : forall s e, R s (set_trace (trace s ++ [e]) s).

Lemma keeps_ret {A} (a : A) : keeps R (ret a).
Proof. intros s. reflexivity. Qed.

Lemma keeps_raise {A} (e : Exn) : keeps R (@raise A e).
Proof. intros s. reflexivity. Qed.

Lemma keeps_get : keeps R get.
Proof. intros s. reflexivity. Qed.

Lemma keeps_gets {A} (f : App -> A) : keeps R (gets f).
Proof. intros s. reflexivity. Qed.

Lemma keeps_modify (f : App -> App) :
  (forall s, R s (f s)) -> keeps R (modify f).
Proof. intros H s. apply H. Qed.

Lemma keeps_emit (e : Event) : keeps R (emit e).
Proof. intros s. apply R_emit. Qed.

Lemma keeps_bind {A B} (m : M A) (k : A -> M B) :
  keeps R m -> (forall a, keeps R (k a)) -> keeps R (bind m k).
Proof.
  intros Hm Hk s. unfold bind. specialize (Hm s).
  destruct (m s) as [[a|e] s1]; simpl in *; [|done].
  etransitivity; [exact Hm | apply Hk].
Qed.

Lemma keeps_try_except {A} (m : M A) (h : Exn -> M A) :
  keeps R m -> (forall e, keeps R (h e)) -> keeps R (try_except m h).
Proof.
  intros Hm Hh s. unfold try_except. specialize (Hm s).
  destruct (m s) as [[a|e] s1]; simpl in *; [done|].
  etransitivity; [exact Hm | apply Hh].
Qed.

Lemma keeps_for_each {A} (l : list A) (body : A -> M unit) :
  (forall x, keeps R (body x)) -> keeps R (for_each l body).
Proof.
  intros Hb. induction l as [|x l IH]; simpl.
  - apply keeps_ret.
  - apply keeps_bind; [apply Hb | intros _; exact IH].
Qed.

Lemma keeps_fold_each {A S} (l : list A) (body : S -> A -> M S) acc :
  (forall a x, keeps R (body a x)) -> keeps R (fold_each l body acc).
Proof.
  intros Hb. revert acc. induction l as [|x l IH]; intros acc; simpl.
  - apply keeps_ret.
  - apply keeps_bind; [apply Hb | intros a; apply IH].
Qed.

Lemma keeps_log_message m : keeps R (log_message m).
Proof. apply keeps_emit. Qed.

Lemma keeps_add_log w m : keeps R (add_log w m).
Proof.
  unfold add_log. destruct (add_log_raises w m);
    [apply keeps_raise | apply keeps_emit].
Qed.
End Keeps.

#[local] Instance same_on_preorder {X} (f : App -> X) : PreOrder (same_on f).
Proof.
  split; [by intros s | intros s1 s2 s3 H1 H2; unfold same_on in *; congruence].
Qed.

(** Side conditions of the lemmas above: the preorder and the hypothesis
    on [emit]. *)
Ltac keeps_side := first [ exact _ | assumption | done ].

(** One structural step of a [keeps] goal. *)
Ltac keeps_step :=
  match goal with
  | |- keeps _ (bind _ _) => apply keeps_bind; [keeps_side.. | | intros ?]
  | |- keeps _ (try_except _ _) =>
      apply keeps_try_except; [keeps_side.. | | intros ?]
  | |- keeps _ (for_each _ _) =>
      apply keeps_for_each; [keeps_side.. | intros ?]
  | |- keeps _ (fold_each _ _ _) =>
      apply keeps_fold_each; [keeps_side.. | intros ? ?]
  | |- keeps _ (ret _) => apply keeps_ret; keeps_side
  | |- keeps _ (raise _) => apply keeps_raise; keeps_side
  | |- keeps _ get => apply keeps_get; keeps_side
  | |- keeps _ (gets _) => apply keeps_gets; keeps_side
  | |- keeps _ (emit _) => apply keeps_emit; keeps_side
  | |- keeps _ (log_message _) => apply keeps_log_message; keeps_side
  | |- keeps _ (add_log _ _) => apply keeps_add_log; keeps_side
  | |- keeps _ (modify _) => apply keeps_modify; intros ?
  | |- keeps _ (match ?x with _ => _ end) => destruct x
  | |- keeps _ (let _ := _ in _) => cbv zeta
  end.

(** ** Invariants of the worker *)

Section WorkerKeeps.
Context (R : relation App) `{!PreOrder R}.
Hypothesis R_emit : forall s e, R s (set_trace (trace s ++ [e]) s).
Hypothesis R_register :
  forall s k p, R s (set_processes (dict_set k p (processes s)) s).

Lemma wait_for_redis_keeps w n a : keeps R (wait_for_redis w n a).
Proof.
  revert a. induction n as [|n IH]; intros a; simpl.
  - keeps_step.
  - unfold check_redis_health. repeat keeps_step; apply IH.
Qed.

Lemma Popen_call_keeps w name argv cwd env :
  keeps R (Popen_call w name argv cwd env).
Proof. unfold Popen_call. repeat keeps_step. Qed.

Lemma register_keeps name p : keeps R (register name p).
Proof. apply keeps_modify. intros s. apply R_register. Qed.

Lemma start_redis_keeps w : keeps R (start_redis w).
Proof.
  unfold start_redis.
  repeat first [ apply Popen_call_keeps | apply wait_for_redis_keeps
               | apply register_keeps | keeps_step ].
Qed.

Lemma report_launch_keeps w name config p :
  keeps R (report_launch w name config p).
Proof.
  unfold report_launch. repeat first [ apply register_keeps | keeps_step ].
Qed.

Lemma launch_service_keeps w env item : keeps R (launch_service w env item).
Proof.
  unfold launch_service.
  repeat first [ apply Popen_call_keeps | apply report_launch_keeps
               | keeps_step ].
Qed.

Lemma start_sequence_keeps w : keeps R (start_sequence w).
Proof.
  unfold start_sequence.
  repeat first [ apply start_redis_keeps | apply launch_service_keeps
               | keeps_step ].
Qed.
End WorkerKeeps.

#[local] Instance registry_ok_preorder : PreOrder registry_ok.
Proof.
  split; [intros s H; exact H | intros s1 s2 s3 H1 H2 H; apply H2, H1, H].
Qed.


(** ** Entry points: single flight and idempotent stop *)

Lemma worker_thread_registry w : keeps registry_ok (worker_thread w).
Proof.
  assert (He : forall s e, registry_ok s (set_trace (trace s ++ [e]) s))
    by (intros s e H; exact H).
  assert (Hr : forall s k p,
             registry_ok s (set_processes (dict_set k p (processes s)) s))
    by (intros s k p H; simpl; by apply dict_set_NoDup).
  unfold worker_thread, worker_run, _start_services, _stop_services,
    stop_process, terminate.
  repeat first
    [ apply start_sequence_keeps; [exact _ | exact He | exact Hr]
    | keeps_step ];
    try (intros H; simpl; first [exact H | apply NoDup_nil_2]).
Qed.

(** C8. Single flight: while a worker operation is in flight
    ([service_worker.isRunning()]), [start_services] is rejected as a
    no-op: the state, and with it the trace of launches, is left exactly as
    it was, so no second process is launched for any service. The start
    sequence itself does nothing once the running flag is set, and the
    worker in flight, whatever it was doing, leaves a registry with at most
    one handle per service identifier. *)
Theorem C8_single_flight (w : World) (s : App) :
  worker_isRunning s = true ->
  start_services w s = (Ok tt, s)
  /\ launched (snd (start_services w s)) = launched s
  /\ (services_running s = true -> _start_services w s = (Ok tt, s))
  /\ (NoDup (dict_keys (processes s)) ->
      NoDup (dict_keys (processes (snd (worker_thread w s))))).
Proof.
  intros Hrun.
  assert (Hnoop : start_services w s = (Ok tt, s)).
  { unfold start_services, bind, get. simpl.
    rewrite Hrun, orb_true_r. reflexivity. }
  split; [exact Hnoop|]. split; [by rewrite Hnoop|]. split.
  - intros Hon. unfold _start_services, bind, get. simpl. by rewrite Hon.
  - apply worker_thread_registry.
Qed.

Lemma C8_single_flight_witness :
  worker_isRunning start_in_flight = true
  /\ start_services silent_world start_in_flight = (Ok tt, start_in_flight)
  /\ launched (snd (worker_thread silent_world start_in_flight))
     = ["redis"; "gary"; "melodyflow"; "stable-audio"]%string.
Proof.
  split; [reflexivity|]. split.
  - apply (C8_single_flight silent_world start_in_flight). reflexivity.
  - vm_compute. reflexivity.
Defined.

(** C9. Idempotent stop: with the running flag false, both the entry point
    [stop_services] and the worker's [_stop_services] answer at once and
    leave the whole state as it was: registry, flag, start timestamp, and
    the trace, so that no terminate, kill or taskkill is issued. *)
Theorem C9_stop_when_stopped (w : World) (s : App) :
  services_running s = false ->
  stop_services w s = (Ok tt, s) /\ _stop_services w s = (Ok tt, s).
Proof.
  intros Hoff. unfold stop_services, _stop_services, bind, get. simpl.
  rewrite Hoff. simpl. split; reflexivity.
Qed.

Lemma C9_stop_when_stopped_witness :
  services_running initial = false
  /\ stop_services silent_world initial = (Ok tt, initial)
  /\ _stop_services silent_world initial = (Ok tt, initial).
Proof.
  split; [reflexivity|].
  apply (C9_stop_when_stopped silent_world initial). reflexivity.
Defined.

(** C6. Busy exemption: with the running flag true, the handle of gary
    alive, its snapshot entry unhealthy and its port listening, the widget
    of gary is given [starting], not [error]. *)
Theorem C6_busy_exemption (w : World) (s : App) (config : ServiceConfig)
    (process : Popen) :
  services_running s = true ->
  dict_get "gary" (processes s) = Some process ->
  poll w (pid process) = None ->
  status_get (last_health_status s) "gary" = false ->
  port_listening w (cfg_port config) = true ->
  service_status w s ("gary", config) = starting
  /\ (In ("gary", config) (services w) ->
      In ("gary", starting) (update_status_indicators w s)).
Proof.
  intros Hon Hget Hpoll Hbad Hport.
  assert (Hst : service_status w s ("gary", config) = starting).
  { unfold service_status, alive. simpl.
    rewrite Hon, Hget, Hpoll, Hbad, Hport. reflexivity. }
  split; [exact Hst|].
  intros Hin. unfold update_status_indicators. right.
  apply in_map_iff. exists ("gary", config). simpl. by rewrite Hst.
Qed.

Lemma C6_busy_exemption_witness :
  service_status busy_world gary_busy
    ("gary", mkConfig "services/gary" "g4l_localhost.py" 8000 "gary main")
  = starting.
Proof.
  apply (C6_busy_exemption busy_world gary_busy
           (mkConfig "services/gary" "g4l_localhost.py" 8000 "gary main")
           (mkPopen 101)); reflexivity.
Defined.

(** ** Overall system state *)

Lemma count_if_filter {A} (f : A -> bool) (l : list A) :
  count_if f l = length (List.filter f l).
Proof.
  induction l as [|x l IH]; simpl; [done|].
  destruct (f x); simpl; by rewrite IH.
Qed.

Lemma count_if_positive {A} (f : A -> bool) (l : list A) :
  (0 <? Z.of_nat (count_if f l)) = existsb f l.
Proof.
  induction l as [|x l IH]; simpl; [done|].
  destruct (f x); simpl; [|exact IH].
  apply Z.ltb_lt. lia.
Qed.

(** C5, as the claim words it, fails: with every service healthy (100%)
    and the dependency down, the claim answers [error] but
    [get_system_status] answers [starting]. *)
Lemma C5_counterexample :
  get_system_status redis_down_world services_up_redis_down = starting
  /\ overall_state_claimed redis_down_world services_up_redis_down = error.
Proof. split; vm_compute; reflexivity. Qed.

(** C5, amended. [get_system_status] is: [stopped] when the running flag
    is false; else [error] if a tracked non-dependency process has exited;
    else, counting the configured services whose handle is registered and
    alive and that are healthy-or-port-listening, and taking the dependency
    as healthy when its snapshot entry is true or port 6379 listens:
    [running] if all services count and the dependency is healthy,
    [starting] if at least one service counts or the dependency is
    healthy, otherwise [error]. *)
Theorem C5_overall_state (w : World) (s : App) :
  get_system_status w s = overall_state_amended w s.
Proof.
  unfold get_system_status, overall_state_amended, some_service_exited,
    healthy_or_listening.
  destruct (services_running s); simpl; [|reflexivity].
  rewrite count_if_positive.
  destruct (existsb _ (processes s)); [reflexivity|].
  rewrite count_if_positive, count_if_filter.
  set (n := length (List.filter _ (services w))).
  assert (Hpos : existsb
            (fun nc : string * ServiceConfig =>
               match dict_get nc.1 (processes s) with
               | Some process =>
                   alive w process
                   && (status_get (last_health_status s) nc.1
                       || port_listening w (cfg_port nc.2))
               | None => false
               end) (services w) = Nat.ltb 0 n).
  { rewrite <- count_if_positive, count_if_filter. fold n.
    destruct n; simpl; [reflexivity|].
    apply Z.ltb_lt. lia. }
  rewrite Hpos.
  replace (bool_decide (n = length (services w)))
    with (Nat.eqb n (length (services w))).
  2:{ destruct (Nat.eqb_spec n (length (services w))) as [E|E].
      - by rewrite bool_decide_eq_true_2.
      - by rewrite bool_decide_eq_false_2. }
  destruct (status_get (last_health_status s) "redis"); reflexivity.
Qed.

(** ** The start sequence *)

#[local] Instance trace_extends_preorder : PreOrder trace_extends.
Proof.
  split.
  - intros s. exists []. by rewrite app_nil_r.
  - intros s1 s2 s3 [t1 H1] [t2 H2]. exists (t1 ++ t2)%list.
    by rewrite H2, H1, app_assoc.
Qed.

Lemma trace_extends_emit s e :
  trace_extends s (set_trace (trace s ++ [e]) s).
Proof. by exists [e]. Qed.

Lemma trace_extends_register s k p :
  trace_extends s (set_processes (dict_set k p (processes s)) s).
Proof. exists []. simpl. by rewrite app_nil_r. Qed.

Lemma _start_services_entry (w : World) (s : App) :
  services_running s = false ->
  _start_services w s = start_sequence w (start_entered w s).
Proof.
  intros Hoff. unfold _start_services, bind, get, log_message, emit, modify.
  simpl. rewrite Hoff. unfold start_entered. simpl.
  by rewrite <- app_assoc.
Qed.

Lemma start_sequence_flag (w : World) (s : App) :
  flag_and_time (snd (start_sequence w s)) = flag_and_time s.
Proof.
  apply (start_sequence_keeps (same_on flag_and_time)); done.
Qed.

Lemma start_sequence_trace (w : World) (s : App) :
  trace_extends s (snd (start_sequence w s)).
Proof.
  apply (start_sequence_keeps trace_extends);
    [apply trace_extends_emit | apply trace_extends_register].
Qed.




Lemma report_launch_processes w name config p s :
  processes (snd (report_launch w name config p s))
  = dict_set name p (processes s).
Proof.
  unfold report_launch. cbv zeta. unfold bind at 1, register, modify.
  match goal with
  | |- processes (snd (?m ?s1)) = _ =>
      assert (H : keeps (same_on processes) m) by (repeat keeps_step);
      apply (H s1)
  end.
Qed.

(** A launch never fails towards the loop around it, and registers the
    handle exactly when the files exist and [Popen] succeeds. *)
Lemma launch_service_spec w env item s :
  exists s',
    launch_service w env item s = (Ok tt, s')
    /\ processes s'
       = if files_exist w (snd item) then
           match popen w (fst item) with
           | Some p => dict_set (fst item) p (processes s)
           | None => processes s
           end
         else processes s.
Proof.
  unfold launch_service, bind, try_except, Popen_call, log_message, emit,
    modify, ret. cbv zeta.
  destruct (files_exist w (snd item)); simpl;
    [|eexists; split; [reflexivity | done]].
  destruct (popen w (fst item)) as [p|]; simpl;
    [|eexists; split; [reflexivity | done]].
  match goal with
  | |- context [report_launch ?w ?n ?c ?p ?s1] =>
      pose proof (report_launch_processes w n c p s1) as Hp;
      destruct (report_launch w n c p s1) as [[[]|e] s2]
  end; simpl in *; (eexists; split; [reflexivity | exact Hp]).
Qed.

Lemma launch_all_spec w env l :
  forall s,
    fst (for_each l (launch_service w env) s) = Ok tt
    /\ (forall name p,
          popen w name = Some p ->
          dict_get name (processes s) = Some p ->
          dict_get name
            (processes (snd (for_each l (launch_service w env) s))) = Some p)
    /\ (forall name config p,
          In (name, config) l ->
          files_exist w config = true ->
          popen w name = Some p ->
          dict_get name
            (processes (snd (for_each l (launch_service w env) s))) = Some p).
Proof.
  induction l as [|item l IH]; intros s; simpl.
  - split; [done|]. split; [done | intros ? ? ? []].
  - unfold bind.
    destruct (launch_service_spec w env item s) as (s1 & -> & Hproc).
    destruct (IH s1) as (IH1 & IH2 & IH3).
    assert (Hkeep : forall name p,
               popen w name = Some p ->
               dict_get name (processes s) = Some p ->
               dict_get name (processes s1) = Some p).
    { intros name p Hpop Hget. rewrite Hproc.
      destruct (files_exist w (snd item)); [|done].
      destruct (popen w (fst item)) as [q|] eqn:Hq; [|done].
      destruct (decide (name = fst item)) as [->|Hne].
      - rewrite dict_get_set_eq. congruence.
      - by rewrite dict_get_set_ne. }
    split; [exact IH1|]. split.
    + intros name p Hpop Hget. apply IH2; [done|]. by apply Hkeep.
    + intros name config p [->|Hin] Hfiles Hpop.
      * apply IH2; [done|]. rewrite Hproc. simpl in *.
        rewrite Hfiles, Hpop. apply dict_get_set_eq.
      * by apply (IH3 name config p).
Qed.

(** Redis launches and stays alive but never answers: the retry loop
    runs out, warns, and lets the sequence go on. *)
Lemma start_redis_unreachable w s rp :
  popen w "redis" = Some rp ->
  poll w (pid rp) = None ->
  (forall n, redis_health w n = false) ->
  exists s',
    start_redis w s = (Ok true, s')
    /\ In (EvLogMessage MsgRedisNotResponding) (trace s').
Proof.
  intros Hpop Hpoll Hdown.
  unfold start_redis, try_except, Popen_call, register, log_message, emit,
    modify, bind, ret. simpl.
  rewrite Hpop. simpl. rewrite Hpoll.
  unfold check_redis_health, log_message, emit, modify, bind, ret. simpl.
  rewrite !Hdown. simpl.
  eexists. split; [reflexivity|]. simpl.
  rewrite !in_app_iff. simpl. tauto.
Qed.

Lemma bind_Ok {A B} (m : M A) (k : A -> M B) s a s' :
  m s = (Ok a, s') -> bind m k s = k a s'.
Proof. intros E. unfold bind. by rewrite E. Qed.

Lemma start_sequence_unreachable w s rp :
  path_exists w (base_dir w // "redis" // "redis-server.exe") = true ->
  popen w "redis" = Some rp ->
  poll w (pid rp) = None ->
  (forall n, redis_health w n = false) ->
  exists s1,
    In (EvLogMessage MsgRedisNotResponding) (trace s1)
    /\ processes (snd (start_sequence w s))
       = processes (snd (for_each (services w)
                           (launch_service w (load_env w)) s1))
    /\ trace_extends s1 (snd (start_sequence w s)).
Proof.
  intros Hpath Hpop Hpoll Hdown.
  destruct (start_redis_unreachable w
              (set_trace (trace s ++ [EvLogMessage MsgStartingRedis]) s) rp
              Hpop Hpoll Hdown) as (s1 & E1 & Hin).
  exists s1. split; [exact Hin|].
  unfold start_sequence, try_except. rewrite Hpath. cbn [negb].
  erewrite bind_Ok by reflexivity.
  erewrite bind_Ok by exact E1.
  destruct (launch_all_spec w (load_env w) (services w) s1) as (Hok & _ & _).
  assert (Hlaunch : trace_extends s1
            (snd (for_each (services w) (launch_service w (load_env w)) s1))).
  { apply (keeps_for_each trace_extends); intros x.
    apply (launch_service_keeps trace_extends);
      [apply trace_extends_emit | apply trace_extends_register]. }
  destruct (for_each (services w) (launch_service w (load_env w)) s1)
    as [r s2] eqn:E2. simpl in Hok, Hlaunch |- *. subst r.
  erewrite bind_Ok by exact E2.
  match goal with
  | |- context [bind ?a ?b s2] =>
      assert (Hp : keeps (same_on processes) (bind a b))
        by (repeat keeps_step);
      assert (Ht : keeps trace_extends (bind a b))
        by (pose proof trace_extends_emit; repeat keeps_step);
      specialize (Hp s2); specialize (Ht s2);
      destruct (bind a b s2) as [[[]|e] s3]
  end; simpl in *.
  - split; [exact Hp | by etransitivity].
  - split; [exact Hp|]. etransitivity; [exact Hlaunch|].
    etransitivity; [exact Ht|]. apply trace_extends_emit.
Qed.




(** ** The health monitor *)

(** Unfolds one pass of the loop body down to the oracles. *)
Ltac unfold_check :=
  unfold check_service, evict, check_port_listening, check_service_health,
    check_service_health_detailed, add_log, emit, modify, gets, get, bind,
    ret, raise, dict_mem, no_live_handle, alive in *;
  cbv zeta in *.

Lemma check_service_status w t status item s :
  match fst (check_service w t status item s) with
  | Ok status' =>
      exists b, status' = <[fst item := b]> status
                /\ (services_running s = false
                    \/ no_live_handle w s (fst item) = true -> b = false)
  | Raise e => e = LogError /\ exists m, add_log_raises w m = true
  end.
Proof.
  unfold_check.
  destruct (services_running s) eqn:Hrun; simpl.
  - repeat (case_match; simpl in *; simplify_eq);
      try (eexists; split; [reflexivity | intros [?|?]; congruence]);
      try (split; [reflexivity | eauto]).
  - repeat (case_match; simpl in *; simplify_eq); eauto.
Qed.

Lemma set_confirmed_id s :
  set_confirmed (services_confirmed_healthy s) s = s.
Proof. by destruct s. Qed.

Lemma evict_spec name s :
  evict name s
  = (Ok (bool_decide (is_Some (services_confirmed_healthy s !! name))),
     set_confirmed (delete name (services_confirmed_healthy s)) s).
Proof.
  unfold evict, gets, bind, modify, ret. simpl.
  destruct (services_confirmed_healthy s !! name) eqn:E; simpl.
  - reflexivity.
  - rewrite delete_id by done. by rewrite set_confirmed_id.
Qed.

(** With the running flag false the service is neither probed nor
    logged about: it is marked unhealthy and evicted. *)
Lemma check_service_off w t status item s :
  services_running s = false ->
  check_service w t status item s
  = (Ok (<[fst item := false]> status),
     set_confirmed (delete (fst item) (services_confirmed_healthy s)) s).
Proof.
  intros Hoff. unfold check_service. cbv zeta.
  unfold bind at 1, get. rewrite Hoff. simpl.
  unfold bind. by rewrite evict_spec.
Qed.

Lemma check_service_evicts w t status item s :
  services_running s = false \/ no_live_handle w s (fst item) = true ->
  services_confirmed_healthy (snd (check_service w t status item s))
    !! fst item = None.
Proof.
  intros [Hoff|Hdead].
  - rewrite check_service_off by done. simpl. apply lookup_delete_eq.
  - unfold check_service. cbv zeta. unfold bind at 1, get.
    unfold no_live_handle, alive in Hdead. unfold dict_mem.
    destruct (services_running s); simpl.
    + destruct (dict_get (fst item) (processes s)) as [p|]; simpl.
      * destruct (poll w (pid p)) as [code|]; [|done].
        unfold bind at 1. rewrite evict_spec.
        match goal with
        | |- context [bind ?a ?b ?s1] =>
            assert (Hk : keeps (same_on services_confirmed_healthy) (bind a b))
              by (repeat keeps_step);
            rewrite (Hk s1)
        end.
        simpl. apply lookup_delete_eq.
      * unfold bind. rewrite evict_spec. simpl. apply lookup_delete_eq.
    + unfold bind. rewrite evict_spec. simpl. apply lookup_delete_eq.
Qed.

Lemma check_service_registry w t status item :
  keeps (same_on (fun s => (services_running s, processes s)))
    (check_service w t status item).
Proof.
  unfold_check. unfold keeps, same_on. intros s.
  repeat (case_match; simpl in *; simplify_eq); reflexivity.
Qed.

Lemma check_service_other w t status item k :
  k ≠ fst item ->
  keeps (same_on (fun s => services_confirmed_healthy s !! k))
    (check_service w t status item).
Proof.
  intros Hne. unfold_check. unfold keeps, same_on. intros s.
  repeat (case_match; simpl in *; simplify_eq); simpl;
    rewrite ?lookup_insert_ne, ?lookup_delete_ne by done; reflexivity.
Qed.

Lemma fold_check_dead w t name l :
  forall status s status' s',
    services_running s = false \/ no_live_handle w s name = true ->
    In name (dict_keys l)
    \/ (status !! name = Some false
        /\ services_confirmed_healthy s !! name = None) ->
    fold_each l (check_service w t) status s = (Ok status', s') ->
    status' !! name = Some false
    /\ services_confirmed_healthy s' !! name = None.
Proof.
  induction l as [|item l IH]; intros status s status' s' Hdead Hinv Hrun.
  - simpl in Hrun. injection Hrun as <- <-.
    destruct Hinv as [[]|Hinv]; exact Hinv.
  - simpl in Hrun. unfold bind in Hrun.
    pose proof (check_service_status w t status item s) as Hst.
    pose proof (check_service_registry w t status item s) as Hreg.
    pose proof (check_service_evicts w t status item s) as Hev.
    pose proof (fun k H => check_service_other w t status item k H s) as Hoth.
    destruct (check_service w t status item s) as [[status1|e] s1];
      simpl in *; [|discriminate].
    unfold same_on in Hreg, Hoth. injection Hreg as Hreg1 Hreg2.
    destruct Hst as (b & -> & Hb).
    apply (IH (<[fst item := b]> status) s1 status' s'); [| |exact Hrun].
    + unfold no_live_handle in *. rewrite Hreg1, Hreg2. exact Hdead.
    + destruct (decide (name = fst item)) as [->|Hne].
      * right. rewrite Hb by tauto. rewrite lookup_insert_eq.
        split; [reflexivity | by apply Hev].
      * destruct Hinv as [[Heq|Hin]|[Hs Hc]].
        -- by symmetry in Heq.
        -- by left.
        -- right. rewrite lookup_insert_ne by done.
           rewrite (Hoth name) by done. by split.
Qed.

(** Only a failing [add_log] can make the loop over the services raise. *)
Lemma fold_check_ok w t l :
  (forall m, add_log_raises w m = false) ->
  forall status s, exists status' s',
    fold_each l (check_service w t) status s = (Ok status', s').
Proof.
  intros Hlog. induction l as [|item l IH]; intros status s; simpl.
  - by eexists _, _.
  - unfold bind.
    pose proof (check_service_status w t status item s) as Hst.
    destruct (check_service w t status item s) as [[status1|e] s1];
      simpl in *.
    + apply IH.
    + destruct Hst as (_ & m & Hm). rewrite Hlog in Hm. discriminate.
Qed.

(** What [cycle] does around the loop over the services. *)
Lemma cycle_inv w s status interval s' :
  cycle w s = (Ok (status, interval), s') ->
  exists s1,
    fold_each (services w) (check_service w (time_now w))
      (<["redis" := redis_health w 0]> ∅)
      (set_trace (trace s ++ [EvCheckRedis]) s) = (Ok status, s1)
    /\ services_confirmed_healthy s' = services_confirmed_healthy s1
    /\ trace s' = (trace s1 ++ [EvHealthStatus status])%list
    /\ interval = sleep_time w status (services_confirmed_healthy s1).
Proof.
  unfold cycle, check_redis_health. cbv zeta.
  unfold bind at 1. unfold bind at 1, emit at 1, modify at 1, ret at 1.
  unfold bind at 1.
  destruct (fold_each _ _ _ _) as [[status1|e] s1]; [|discriminate].
  unfold bind, emit, modify, gets, ret. simpl.
  intros H. injection H as <- <- <-. exists s1. by repeat split.
Qed.

Lemma cycle_eq w s :
  cycle w s
  = match fold_each (services w) (check_service w (time_now w))
            (<["redis" := redis_health w 0]> ∅)
            (set_trace (trace s ++ [EvCheckRedis]) s) with
    | (Ok status, s1) =>
        (Ok (status, sleep_time w status (services_confirmed_healthy s1)),
         set_trace (trace s1 ++ [EvHealthStatus status])
           (set_counter (detailed_check_counter s1 + 1) s1))
    | (Raise e, s1) => (Raise e, s1)
    end.
Proof.
  unfold cycle, check_redis_health. cbv zeta.
  unfold bind at 1. unfold bind at 1, emit at 1, modify at 1, ret at 1.
  unfold bind at 1.
  destruct (fold_each _ _ _ _) as [[status1|e] s1]; reflexivity.
Qed.

Lemma fold_check_off w t l :
  forall status s,
    services_running s = false ->
    exists status' s',
      fold_each l (check_service w t) status s = (Ok status', s')
      /\ trace s' = trace s.
Proof.
  induction l as [|item l IH]; intros status s Hoff; simpl.
  - by eexists _, _.
  - unfold bind. rewrite check_service_off by done.
    destruct (IH (<[fst item := false]> status)
                (set_confirmed
                   (delete (fst item) (services_confirmed_healthy s)) s) Hoff)
      as (status' & s' & E & Ht).
    exists status', s'. split; [exact E | exact Ht].
Qed.






(** ** Adaptive interval *)

(** C4, as the claim words it, fails: every service is up and listening
    but answers 503, so the published snapshot maps every configured
    service to true through the port fallback while no service is
    confirmed, and the next interval is 8 seconds, not 15. *)
Lemma C4_counterexample :
  (forall name,
     In name (dict_keys (services busy_world)) ->
     status_get (published (fst (cycle busy_world started))) name = true)
  /\ next_interval (fst (cycle busy_world started)) = 8
  /\ In (EvHealthStatus (published (fst (cycle busy_world started))))
       (trace (snd (cycle busy_world started))).
Proof.
  split.
  - intros name [<-|[<-|[<-|[]]]]; vm_compute; reflexivity.
  - split; [vm_compute; reflexivity|].
    vm_compute. tauto.
Qed.

(** C4, amended. At the end of a cycle the next interval is 15 seconds if
    the published snapshot maps every configured service to true and the
    confirmed-healthy registry has as many entries as there are configured
    services; otherwise 8 seconds if the snapshot maps at least one
    configured service to true; otherwise 3 seconds, which is the case
    when at least one service is configured and all are false. *)
Theorem C4_adaptive_interval (w : World) (s s' : App)
    (status : gmap string bool) (interval : Z) :
  cycle w s = (Ok (status, interval), s') ->
  let all_true :=
    forall name, In name (dict_keys (services w)) ->
                 status_get status name = true in
  let some_true :=
    exists name, In name (dict_keys (services w))
                 /\ status_get status name = true in
  let all_confirmed :=
    size (services_confirmed_healthy s') = length (services w) in
  (all_true /\ all_confirmed -> interval = 15)
  /\ (~ (all_true /\ all_confirmed) -> some_true -> interval = 8)
  /\ (~ (all_true /\ all_confirmed) -> ~ some_true -> interval = 3)
  /\ (services w <> [] ->
      (forall name, In name (dict_keys (services w)) ->
                    status_get status name = false) ->
      interval = 3).
Proof.
  intros Hcycle all_true some_true all_confirmed.
  apply cycle_inv in Hcycle as (s1 & _ & Hconf & _ & ->).
  assert (HA : forallb (status_get status) (dict_keys (services w)) = true
               <-> all_true) by apply forallb_forall.
  assert (HE : existsb (status_get status) (dict_keys (services w)) = true
               <-> some_true) by apply existsb_exists.
  assert (HC : bool_decide
                 (size (services_confirmed_healthy s1) = length (services w))
               = true <-> all_confirmed).
  { subst all_confirmed. rewrite Hconf. apply bool_decide_eq_true. }
  unfold sleep_time.
  destruct (forallb (status_get status) (dict_keys (services w))) eqn:Hall;
    destruct (bool_decide
                (size (services_confirmed_healthy s1) = length (services w)))
      eqn:Hsize;
    destruct (existsb (status_get status) (dict_keys (services w))) eqn:Hex;
    simpl.
  all: repeat split.
  all: try (intros; reflexivity).
  all: try (intros [H1 H2]; apply HA in H1; apply HC in H2; discriminate).
  all: try (intros Hnot; exfalso; apply Hnot; split;
            [by apply HA | by apply HC]).
  all: try (intros _ Hsome; apply HE in Hsome; discriminate).
  all: try (intros _ Hnone; exfalso; apply Hnone; by apply HE).
  all: intros Hcfg Hfalse; exfalso.
  all: try (destruct (proj1 HE eq_refl) as (name & Hin & Htrue);
            rewrite (Hfalse name Hin) in Htrue; discriminate).
  all: pose proof (proj1 HA eq_refl) as Htrue;
    destruct (services w) as [|[name config] l]; [done|];
    specialize (Htrue name (or_introl eq_refl));
    rewrite (Hfalse name (or_introl eq_refl)) in Htrue; discriminate.
Qed.

Lemma C4_adaptive_interval_witness :
  size (services_confirmed_healthy (snd (cycle busy_world started))) = 0%nat
  /\ next_interval (fst (cycle busy_world started)) = 8.
Proof.
  split; [vm_compute; reflexivity|].
  assert (E : cycle busy_world started
              = (Ok (published (fst (cycle busy_world started)),
                     next_interval (fst (cycle busy_world started))),
                 snd (cycle busy_world started)))
    by (vm_compute; reflexivity).
  destruct (C4_adaptive_interval busy_world started _ _ _ E)
    as (_ & H8 & _).
  apply H8.
  - intros [_ Hsize]. vm_compute in Hsize. discriminate.
  - exists "gary". split; [left; reflexivity | vm_compute; reflexivity].
Defined.

(** ** The monitoring loop *)

Lemma sleep_loop_ok n :
  forall j stop_at s, exists s', sleep_loop n j stop_at s = (Ok tt, s').
Proof.
  induction n as [|n IH]; intros j stop_at s; simpl.
  - destruct stop_at; by eexists.
  - unfold bind, stop, modify, get, emit, ret.
    destruct (bool_decide (stop_at = Some j)); simpl.
    + by eexists.
    + destruct (hc_running s); simpl; [apply IH | by eexists].
Qed.

Lemma sleep_loop_stops n :
  forall j k s,
    (j <= k)%nat ->
    hc_running (snd (sleep_loop n j (Some k) s)) = false.
Proof.
  induction n as [|n IH]; intros j k s Hjk; simpl.
  - reflexivity.
  - unfold bind, stop, modify, get, emit, ret.
    destruct (bool_decide (Some k = Some j)) eqn:E; simpl; [reflexivity|].
    destruct (hc_running s) eqn:Hrun; simpl; [|exact Hrun].
    apply IH. apply bool_decide_eq_false_1 in E.
    assert (k <> j) by congruence. lia.
Qed.

Lemma cycle_ok w s :
  (forall m, add_log_raises w m = false) ->
  exists r s', cycle w s = (Ok r, s').
Proof.
  intros Hlog. rewrite cycle_eq.
  destruct (fold_check_ok w (time_now w) (services w) Hlog
              (<["redis" := redis_health w 0]> ∅)
              (set_trace (trace s ++ [EvCheckRedis]) s))
    as (status & s1 & ->).
  by eexists _, _.
Qed.

Lemma run_stopped fuel env stops i s :
  hc_running s = false -> run fuel env stops i s = (ExitStopFlag, s).
Proof. intros E. destruct fuel; simpl; by rewrite E. Qed.

Lemma run_S fuel env stops i s :
  hc_running s = true ->
  run (S fuel) env stops i s
  = match cycle (env i) s with
    | (Ok r, s1) =>
        match sleep_loop (Z.to_nat (snd r * 10)) 0 (stops i) s1 with
        | (Ok _, s2) => run fuel env stops (S i) s2
        | (Raise e, s2) =>
            match add_log (env i) MsgHealthCheckError s2 with
            | (Ok _, s3) => (ExitBreak e, s3)
            | (Raise e', s3) => (ExitUncaught e', s3)
            end
        end
    | (Raise e, s1) =>
        match add_log (env i) MsgHealthCheckError s1 with
        | (Ok _, s2) => (ExitBreak e, s2)
        | (Raise e', s2) => (ExitUncaught e', s2)
        end
    end.
Proof.
  intros E. simpl. rewrite E. simpl. unfold bind.
  destruct (cycle (env i) s) as [[r|e] s1]; reflexivity.
Qed.

Lemma run_stop_flag fuel env stops :
  forall i s,
    fst (run fuel env stops i s) = ExitStopFlag ->
    hc_running (snd (run fuel env stops i s)) = false.
Proof.
  induction fuel as [|fuel IH]; intros i s;
    destruct (hc_running s) eqn:E;
    try (rewrite run_stopped by done; done).
  - simpl. rewrite E. simpl. discriminate.
  - rewrite run_S by done.
    destruct (cycle (env i) s) as [[r|e] s1].
    + destruct (sleep_loop_ok (Z.to_nat (snd r * 10)) 0 (stops i) s1)
        as (s2 & ->).
      apply IH.
    + destruct (add_log _ _ s1) as [[[]|e'] s2]; simpl; discriminate.
Qed.

Lemma run_no_failure fuel env stops :
  (forall j m, add_log_raises (env j) m = false) ->
  forall i s,
    fst (run fuel env stops i s) = ExitStopFlag
    \/ fst (run fuel env stops i s) = ExitFuel.
Proof.
  intros Hlog. induction fuel as [|fuel IH]; intros i s;
    destruct (hc_running s) eqn:E;
    try (rewrite run_stopped by done; by left).
  - simpl. rewrite E. by right.
  - rewrite run_S by done.
    destruct (cycle_ok (env i) s (Hlog i)) as (r & s1 & ->).
    destruct (sleep_loop_ok (Z.to_nat (snd r * 10)) 0 (stops i) s1)
      as (s2 & ->).
    apply IH.
Qed.




(** * Further properties of the supervisor *)

(** ** The stop sequence *)

(** Brings a state reached by a chain of [emit]s to the form
    [set_trace (trace s ++ t) s]. *)
Ltac norm_trace := simpl; rewrite <- ?app_assoc; simpl.

Lemma stop_process_spec w item s :
  exists t,
    stop_process w item s = (Ok tt, set_trace (trace s ++ t) s)
    /\ omap sent_terminate t
       = (if alive w (snd item) then [pid (snd item)] else [])
    /\ omap sent_kill t
       = (if needs_kill w (snd item) then [pid (snd item)] else []).
Proof.
  unfold stop_process, needs_kill, alive, terminate, try_except, bind,
    log_message, emit, modify, ret, raise. cbv zeta.
  destruct (poll w (pid (snd item))); simpl.
  { exists []. rewrite app_nil_r. by destruct s. }
  destruct (terminate_raises w (pid (snd item))); simpl;
    [norm_trace; by eexists|].
  destruct (wait_after_terminate w (pid (snd item))); simpl;
    try (norm_trace; by eexists).
  destruct (wait_after_kill w (pid (snd item))); simpl;
    norm_trace; by eexists.
Qed.

Lemma stop_all_spec w l :
  forall s,
    exists t,
      for_each l (stop_process w) s = (Ok tt, set_trace (trace s ++ t) s)
      /\ omap sent_terminate t
         = map pid (List.filter (alive w) (map snd l))
      /\ omap sent_kill t
         = map pid (List.filter (needs_kill w) (map snd l)).
Proof.
  induction l as [|item l IH]; intros s; simpl.
  - exists []. rewrite app_nil_r. by destruct s.
  - unfold bind.
    destruct (stop_process_spec w item s) as (t1 & -> & Ht1 & Hk1).
    destruct (IH (set_trace (trace s ++ t1) s)) as (t2 & -> & Ht2 & Hk2).
    exists (t1 ++ t2)%list. simpl. rewrite <- app_assoc. split; [done|].
    rewrite !omap_app, Ht1, Ht2, Hk1, Hk2.
    split; [destruct (alive w (snd item)) | destruct (needs_kill w (snd item))];
      reflexivity.
Qed.

Lemma _stop_services_spec w s :
  services_running s = true ->
  exists t,
    _stop_services w s
    = (Ok tt,
       set_trace (trace s ++ t)
         (set_start_time None
            (set_services_running false (set_processes [] s))))
    /\ omap sent_terminate t
       = map pid (List.filter (alive w) (map snd (processes s)))
    /\ omap sent_kill t
       = map pid (List.filter (needs_kill w) (map snd (processes s)))
    /\ In EvTaskkillRedis t
    /\ last t = Some EvServicesStopped.
Proof.
  intros Hon. unfold _stop_services. unfold bind at 1, get. rewrite Hon.
  cbn [negb]. unfold bind at 1, log_message at 1, emit at 1, modify at 1.
  unfold bind at 1.
  destruct (stop_all_spec w (processes s)
              (set_trace (trace s ++ [EvLogMessage MsgStoppingAll]) s))
    as (t & E & Ht & Hk).
  simpl in E. rewrite E.
  unfold try_except, bind, log_message, emit, modify, ret, raise.
  destruct (taskkill_raises w); norm_trace.
  - eexists. split; [reflexivity|]. simpl.
    rewrite !omap_app, Ht, Hk. simpl. rewrite !app_nil_r.
    split; [done|]. split; [done|]. split.
    + right. apply in_app_iff. right. by left.
    + rewrite app_comm_cons, last_app. reflexivity.
  - eexists. split; [reflexivity|]. simpl.
    rewrite !omap_app, Ht, Hk. simpl. rewrite !app_nil_r.
    split; [done|]. split; [done|]. split.
    + right. apply in_app_iff. right. by left.
    + rewrite app_comm_cons, last_app. reflexivity.
Qed.

(** X1. The stop sequence is best effort and always completes: entered
    with the running flag true, [_stop_services] raises nothing, asks every
    tracked process that is still alive to terminate, in registry order
    and whatever happened to the ones before it, runs the [taskkill]
    backstop, and ends with an empty registry, the flag false, the start
    timestamp reset and the [services_stopped] signal as its last effect. *)
Theorem X1_stop_sequence_completes (w : World) (s : App) :
  services_running s = true ->
  fst (_stop_services w s) = Ok tt
  /\ processes (snd (_stop_services w s)) = []
  /\ services_running (snd (_stop_services w s)) = false
  /\ start_time (snd (_stop_services w s)) = None
  /\ terminated (snd (_stop_services w s))
     = (terminated s
        ++ map pid (List.filter (alive w) (map snd (processes s))))%list
  /\ In EvTaskkillRedis (trace (snd (_stop_services w s)))
  /\ last (trace (snd (_stop_services w s))) = Some EvServicesStopped.
Proof.
  intros Hon.
  destruct (_stop_services_spec w s Hon) as (t & -> & Ht & _ & Hin & Hlast).
  simpl. repeat split.
  - unfold terminated. simpl. by rewrite omap_app, Ht.
  - apply in_app_iff. by right.
  - rewrite last_app, Hlast. reflexivity.
Qed.

Lemma X1_stop_sequence_completes_witness :
  terminated (snd (_stop_services stubborn_world started))
  = [100; 101; 102; 103]
  /\ processes (snd (_stop_services stubborn_world started)) = [].
Proof.
  destruct (X1_stop_sequence_completes stubborn_world started eq_refl)
    as (_ & Hreg & _ & _ & Hterm & _).
  split; [exact Hterm | exact Hreg].
Defined.



(** ** Effects an operation never has *)

Section OnlyEmits.
Context (P : Event -> Prop).

Lemma only_emits_ret {A} (a : A) : only_emits P (ret a).
Proof. intros s. exists []. by rewrite app_nil_r. Qed.

Lemma only_emits_raise {A} (e : Exn) : only_emits P (@raise A e).
Proof. intros s. exists []. by rewrite app_nil_r. Qed.

Lemma only_emits_get : only_emits P get.
Proof. intros s. exists []. by rewrite app_nil_r. Qed.

Lemma only_emits_gets {A} (f : App -> A) : only_emits P (gets f).
Proof. intros s. exists []. by rewrite app_nil_r. Qed.

Lemma only_emits_modify (f : App -> App) :
  (forall s, trace (f s) = trace s) -> only_emits P (modify f).
Proof. intros H s. exists []. simpl. by rewrite H, app_nil_r. Qed.

Lemma only_emits_emit (e : Event) : P e -> only_emits P (emit e).
Proof. intros H s. exists [e]. split; [done | by constructor]. Qed.

Lemma only_emits_bind {A B} (m : M A) (k : A -> M B) :
  only_emits P m -> (forall a, only_emits P (k a)) -> only_emits P (bind m k).
Proof.
  intros Hm Hk s. unfold bind. destruct (Hm s) as (t1 & E1 & F1).
  destruct (m s) as [[a|e] s1]; simpl in *; [|by exists t1].
  destruct (Hk a s1) as (t2 & E2 & F2). exists (t1 ++ t2)%list.
  rewrite E2, E1, app_assoc. split; [done | by apply Forall_app].
Qed.

Lemma only_emits_try_except {A} (m : M A) (h : Exn -> M A) :
  only_emits P m -> (forall e, only_emits P (h e)) ->
  only_emits P (try_except m h).
Proof.
  intros Hm Hh s. unfold try_except. destruct (Hm s) as (t1 & E1 & F1).
  destruct (m s) as [[a|e] s1]; simpl in *; [by exists t1|].
  destruct (Hh e s1) as (t2 & E2 & F2). exists (t1 ++ t2)%list.
  rewrite E2, E1, app_assoc. split; [done | by apply Forall_app].
Qed.

Lemma only_emits_for_each {A} (l : list A) (body : A -> M unit) :
  (forall x, only_emits P (body x)) -> only_emits P (for_each l body).
Proof.
  intros Hb. induction l as [|x l IH]; simpl.
  - apply only_emits_ret.
  - apply only_emits_bind; [apply Hb | intros _; exact IH].
Qed.

Lemma only_emits_fold_each {A S} (l : list A) (body : S -> A -> M S) acc :
  (forall a x, only_emits P (body a x)) ->
  only_emits P (fold_each l body acc).
Proof.
  intros Hb. revert acc. induction l as [|x l IH]; intros acc; simpl.
  - apply only_emits_ret.
  - apply only_emits_bind; [apply Hb | intros a; apply IH].
Qed.
End OnlyEmits.

(** One structural step of an [only_emits] goal; what is left are the
    conditions on the events themselves. *)
Ltac only_emits_step :=
  match goal with
  | |- only_emits _ (bind _ _) => apply only_emits_bind; [|intros ?]
  | |- only_emits _ (try_except _ _) =>
      apply only_emits_try_except; [|intros ?]
  | |- only_emits _ (for_each _ _) => apply only_emits_for_each; intros ?
  | |- only_emits _ (fold_each _ _ _) =>
      apply only_emits_fold_each; intros ? ?
  | |- only_emits _ (ret _) => apply only_emits_ret
  | |- only_emits _ (raise _) => apply only_emits_raise
  | |- only_emits _ get => apply only_emits_get
  | |- only_emits _ (gets _) => apply only_emits_gets
  | |- only_emits _ (emit _) => apply only_emits_emit
  | |- only_emits _ (log_message _) => apply only_emits_emit
  | |- only_emits _ (modify _) => apply only_emits_modify; intros ?
  | |- only_emits _ (match ?x with _ => _ end) => destruct x
  | |- only_emits _ (let _ := _ in _) => cbv zeta
  end.

Lemma omap_nothing {A B} (f : A -> option B) (t : list A) :
  Forall (fun x => f x = None) t -> omap f t = [].
Proof.
  induction 1 as [|x t Hx _ IH]; simpl; [done|]. by rewrite Hx.
Qed.

Lemma only_emits_launched {A} (m : M A) s :
  only_emits (fun e => sent_popen e = None) m ->
  launched (snd (m s)) = launched s.
Proof.
  intros H. destruct (H s) as (t & E & F). unfold launched.
  rewrite E, omap_app.
  change (omap sent_popen (trace s) ++ omap sent_popen t
          = omap sent_popen (trace s))%list.
  by rewrite (omap_nothing _ _ F), app_nil_r.
Qed.

(** ** What the start sequence launches *)

Lemma launched_emit t x e :
  launched (set_trace (t ++ [e]) x)
  = (launched (set_trace t x)
     ++ match sent_popen e with Some n => [n] | None => [] end)%list.
Proof.
  unfold launched. simpl. rewrite omap_app. simpl.
  change (match e with
          | EvPopen name _ _ _ => Some name
          | _ => None
          end) with (sent_popen e).
  by destruct (sent_popen e).
Qed.

Lemma launched_base s x : launched (set_trace (trace s) x) = launched s.
Proof. reflexivity. Qed.

(** Rewrites [launched] of a state reached by a chain of [emit]s. *)
Ltac launched_norm :=
  rewrite ?launched_emit, ?launched_base; simpl; rewrite ?app_nil_r.

Lemma report_launch_no_popen w name config p :
  only_emits (fun e => sent_popen e = None) (report_launch w name config p).
Proof.
  unfold report_launch, register. repeat only_emits_step; done.
Qed.

Lemma wait_for_redis_no_popen w n a :
  only_emits (fun e => sent_popen e = None) (wait_for_redis w n a).
Proof.
  revert a. induction n as [|n IH]; intros a; simpl.
  - only_emits_step.
  - unfold check_redis_health. repeat only_emits_step; try done; apply IH.
Qed.

Lemma launch_service_launched w env item s :
  launched (snd (launch_service w env item s))
  = (launched s ++ if files_exist w (snd item) then [fst item] else [])%list.
Proof.
  unfold launch_service, bind, try_except, Popen_call, log_message, emit,
    modify, ret, raise. cbv zeta.
  destruct (files_exist w (snd item)); simpl; [|by launched_norm].
  destruct (popen w (fst item)) as [p|]; simpl; [|by launched_norm].
  match goal with
  | |- context [report_launch ?w ?n ?c ?p ?s1] =>
      pose proof (only_emits_launched (report_launch w n c p) s1
                    (report_launch_no_popen w n c p)) as Hl;
      destruct (report_launch w n c p s1) as [[[]|e] s2]
  end; cbn [fst snd] in *; [|rewrite launched_emit, launched_base];
    rewrite Hl; by launched_norm.
Qed.

Lemma launch_all_launched w env l :
  forall s,
    launched (snd (for_each l (launch_service w env) s))
    = (launched s
       ++ map fst (List.filter (fun item => files_exist w (snd item)) l))%list.
Proof.
  induction l as [|item l IH]; intros s; simpl.
  - by rewrite app_nil_r.
  - unfold bind.
    pose proof (launch_service_launched w env item s) as H1.
    destruct (launch_service_spec w env item s) as (s1 & E & _).
    rewrite E in H1 |- *. simpl in H1. rewrite IH, H1.
    destruct (files_exist w (snd item)); simpl;
      by rewrite <- ?app_assoc, ?app_nil_r.
Qed.

Lemma wait_for_redis_ok w n :
  forall a s, exists s', wait_for_redis w n a s = (Ok tt, s').
Proof.
  induction n as [|n IH]; intros a s; simpl; [by eexists|].
  unfold check_redis_health, bind, log_message, emit, modify, ret.
  destruct (redis_health w a); [by eexists|].
  destruct (Z.of_nat a <? max_retries - 1); apply IH.
Qed.

Lemma start_redis_launched w s :
  exists s',
    start_redis w s = (Ok (redis_up w), s')
    /\ launched s' = (launched s ++ ["redis"])%list
    /\ forall name, name ≠ "redis" ->
         dict_get name (processes s') = dict_get name (processes s).
Proof.
  unfold start_redis, redis_up, alive.
  generalize (Z.to_nat max_retries). intros n.
  unfold try_except, Popen_call, register, log_message, emit, modify, bind,
    ret, raise.
  destruct (popen w "redis") as [rp|]; simpl;
    [|eexists; split; [reflexivity | split; [by launched_norm | done]]].
  destruct (poll w (pid rp)); simpl.
  { eexists; split; [reflexivity | split; [by launched_norm|]].
    intros name Hne. simpl. by apply dict_get_set_ne. }
  match goal with
  | |- context [wait_for_redis ?w ?n ?a ?s1] =>
      pose proof (only_emits_launched (wait_for_redis w n a) s1
                    (wait_for_redis_no_popen w n a)) as Hl;
      pose proof (wait_for_redis_keeps (same_on processes)
                    (fun _ _ => eq_refl) w n a s1) as Hp;
      destruct (wait_for_redis_ok w n a s1) as (s2 & E);
      rewrite E in Hl, Hp |- *
  end.
  eexists. split; [reflexivity|]. cbn [snd] in Hl, Hp. split.
  - rewrite Hl. by launched_norm.
  - intros name Hne. unfold same_on in Hp. simpl in Hp. rewrite Hp.
    by apply dict_get_set_ne.
Qed.

(** Everything the start sequence launches, in order. *)
Lemma start_sequence_launched w s :
  launched (snd (start_sequence w s))
  = (launched s
     ++ if path_exists w (base_dir w // "redis" // "redis-server.exe")
        then "redis" :: (if redis_up w then launchable w else [])
        else [])%list.
Proof.
  unfold start_sequence, try_except.
  destruct (path_exists w (base_dir w // "redis" // "redis-server.exe"));
    cbn [negb]; [|simpl; by launched_norm].
  erewrite bind_Ok by reflexivity.
  destruct (start_redis_launched w
              (set_trace (trace s ++ [EvLogMessage MsgStartingRedis]) s))
    as (s1 & E1 & Hl1 & _).
  erewrite bind_Ok by exact E1.
  rewrite launched_emit, launched_base in Hl1. simpl in Hl1.
  rewrite app_nil_r in Hl1.
  destruct (redis_up w); [|simpl; by rewrite Hl1].
  pose proof (launch_all_launched w (load_env w) (services w) s1) as Hl2.
  destruct (launch_all_spec w (load_env w) (services w) s1) as (Hok & _ & _).
  destruct (for_each (services w) (launch_service w (load_env w)) s1)
    as [r s2] eqn:E2. simpl in Hok, Hl2. subst r.
  erewrite bind_Ok by exact E2.
  match goal with
  | |- context [bind ?a ?b s2] =>
      assert (Hn : only_emits (fun e => sent_popen e = None) (bind a b))
        by (repeat only_emits_step; done);
      pose proof (only_emits_launched (bind a b) s2 Hn) as Hl3;
      destruct (bind a b s2) as [[[]|e] s3]
  end; cbn [fst snd] in *.
  - rewrite Hl3, Hl2, Hl1. unfold launchable. by rewrite <- app_assoc.
  - unfold log_message, emit, modify. cbn [snd].
    rewrite launched_emit, launched_base. simpl.
    rewrite app_nil_r, Hl3, Hl2, Hl1. unfold launchable.
    by rewrite <- app_assoc.
Qed.

Lemma launched_start_entered w s : launched (start_entered w s) = launched s.
Proof.
  unfold launched, start_entered. simpl. rewrite omap_app. simpl.
  by rewrite app_nil_r.
Qed.

Lemma start_sequence_abort_registry w s :
  path_exists w (base_dir w // "redis" // "redis-server.exe") = false
  \/ redis_up w = false ->
  forall name, name ≠ "redis" ->
    dict_get name (processes (snd (start_sequence w s)))
    = dict_get name (processes s).
Proof.
  intros Habort name Hne. unfold start_sequence, try_except.
  destruct (path_exists w (base_dir w // "redis" // "redis-server.exe"));
    cbn [negb]; [|reflexivity].
  destruct Habort as [?|Hdown]; [done|].
  erewrite bind_Ok by reflexivity.
  destruct (start_redis_launched w
              (set_trace (trace s ++ [EvLogMessage MsgStartingRedis]) s))
    as (s1 & E1 & _ & Hreg).
  erewrite bind_Ok by exact E1. rewrite Hdown. simpl.
  by rewrite Hreg.
Qed.

(** X3. When the dependency cannot be started, the start sequence launches
    no service: if [redis-server.exe] is missing nothing is launched at
    all, and if the Redis launch raises or the Redis process exits during
    the settle delay only Redis was launched; in both cases every registry
    entry other than that of Redis is left as it was. *)
Theorem X3_no_redis_no_services (w : World) (s : App) :
  services_running s = false ->
  path_exists w (base_dir w // "redis" // "redis-server.exe") = false
  \/ redis_up w = false ->
  launched (snd (_start_services w s))
  = (launched s
     ++ if path_exists w (base_dir w // "redis" // "redis-server.exe")
        then ["redis"] else [])%list
  /\ forall name, name ≠ "redis" ->
       dict_get name (processes (snd (_start_services w s)))
       = dict_get name (processes s).
Proof.
  intros Hoff Habort. rewrite (_start_services_entry w s Hoff). split.
  - rewrite start_sequence_launched, launched_start_entered.
    destruct (path_exists w (base_dir w // "redis" // "redis-server.exe"));
      [|done].
    destruct Habort as [?|Hdown]; [done | by rewrite Hdown].
  - intros name Hne.
    by rewrite (start_sequence_abort_registry w _ Habort name Hne).
Qed.

Lemma X3_no_redis_no_services_witness :
  launched (snd (_start_services redis_dies_world initial)) = ["redis"]
  /\ dict_get "gary" (processes (snd (_start_services redis_dies_world initial)))
     = None.
Proof.
  destruct (X3_no_redis_no_services redis_dies_world initial eq_refl
              (or_intror eq_refl)) as [Hl Hreg].
  split; [exact Hl | by apply Hreg].
Defined.



(** ** The environment of a service *)

Lemma load_env_lookup w k : load_env w !! k = inherited w k.
Proof.
  unfold load_env, inherited.
  destruct (path_exists w (base_dir w // ".env")); [|done].
  rewrite lookup_union.
  destruct (dotenv_values w !! k), (os_environ w !! k); reflexivity.
Qed.

Lemma service_env_lookup w name :
  service_env name (load_env w) !! "PYTHONIOENCODING" = Some "utf-8"
  /\ service_env name (load_env w) !! "PYTHONLEGACYWINDOWSSTDIO" = Some "1"
  /\ (name = "melodyflow" ->
      service_env name (load_env w) !! "XFORMERS_DISABLED" = Some "1"
      /\ service_env name (load_env w) !! "FLASH_ATTENTION_DISABLED"
         = Some "1")
  /\ forall k,
       k ≠ "PYTHONIOENCODING" ->
       k ≠ "PYTHONLEGACYWINDOWSSTDIO" ->
       (name = "melodyflow" ->
        k ≠ "XFORMERS_DISABLED" /\ k ≠ "FLASH_ATTENTION_DISABLED") ->
       service_env name (load_env w) !! k = inherited w k.
Proof.
  unfold service_env. cbv zeta. repeat split.
  - by rewrite lookup_insert_ne, lookup_insert_eq.
  - by rewrite lookup_insert_eq.
  - subst name. rewrite String.eqb_refl.
    rewrite !lookup_insert_ne by done. by rewrite lookup_insert_eq.
  - subst name. rewrite String.eqb_refl.
    rewrite !lookup_insert_ne by done. by rewrite lookup_insert_eq.
  - intros k H1 H2 H3. rewrite !lookup_insert_ne by done.
    destruct (String.eqb_spec name "melodyflow") as [E|E].
    + destruct (H3 E) as [H4 H5]. rewrite !lookup_insert_ne by done.
      apply load_env_lookup.
    + apply load_env_lookup.
Qed.

Lemma no_popen_no_launch (t : list Event) :
  Forall (fun e => sent_popen e = None) t ->
  Forall (fun e => sent_launch e = None) t.
Proof.
  induction 1 as [|e t He _ IH]; constructor; [|exact IH].
  by destruct e.
Qed.

Lemma only_emits_launch_envs {A} (m : M A) s :
  only_emits (fun e => sent_popen e = None) m ->
  launch_envs (snd (m s)) = launch_envs s.
Proof.
  intros H. destruct (H s) as (t & E & F). unfold launch_envs.
  rewrite E, omap_app.
  by rewrite (omap_nothing _ _ (no_popen_no_launch _ F)), app_nil_r.
Qed.

Lemma launch_envs_emit t x e :
  launch_envs (set_trace (t ++ [e]) x)
  = (launch_envs (set_trace t x)
     ++ match sent_launch e with Some n => [n] | None => [] end)%list.
Proof.
  unfold launch_envs. simpl. rewrite omap_app. simpl.
  by destruct (sent_launch e).
Qed.

Lemma launch_envs_base s x :
  launch_envs (set_trace (trace s) x) = launch_envs s.
Proof. reflexivity. Qed.

(** Rewrites [launch_envs] of a state reached by a chain of [emit]s. *)
Ltac launch_envs_norm :=
  rewrite ?launch_envs_emit, ?launch_envs_base; simpl; rewrite ?app_nil_r.

Lemma launch_service_envs w env item s :
  launch_envs (snd (launch_service w env item s))
  = (launch_envs s
     ++ if files_exist w (snd item)
        then [(fst item, service_env (fst item) env)] else [])%list.
Proof.
  unfold launch_service, bind, try_except, Popen_call, log_message, emit,
    modify, ret, raise. cbv zeta.
  destruct (files_exist w (snd item)); simpl; [|by launch_envs_norm].
  destruct (popen w (fst item)) as [p|]; simpl; [|by launch_envs_norm].
  match goal with
  | |- context [report_launch ?w ?n ?c ?p ?s1] =>
      pose proof (only_emits_launch_envs (report_launch w n c p) s1
                    (report_launch_no_popen w n c p)) as Hl;
      destruct (report_launch w n c p s1) as [[[]|e] s2]
  end; cbn [fst snd] in *; [|rewrite launch_envs_emit, launch_envs_base];
    rewrite Hl; by launch_envs_norm.
Qed.

Lemma launch_all_envs w env l :
  forall s,
    launch_envs (snd (for_each l (launch_service w env) s))
    = (launch_envs s
       ++ map (fun item => (fst item, service_env (fst item) env))
            (List.filter (fun item => files_exist w (snd item)) l))%list.
Proof.
  induction l as [|item l IH]; intros s; simpl.
  - by rewrite app_nil_r.
  - unfold bind.
    pose proof (launch_service_envs w env item s) as H1.
    destruct (launch_service_spec w env item s) as (s1 & E & _).
    rewrite E in H1 |- *. simpl in H1. rewrite IH, H1.
    destruct (files_exist w (snd item)); simpl;
      by rewrite <- ?app_assoc, ?app_nil_r.
Qed.

Lemma start_redis_envs w s :
  exists s',
    start_redis w s = (Ok (redis_up w), s')
    /\ launch_envs s' = (launch_envs s ++ [("redis", os_environ w)])%list.
Proof.
  unfold start_redis, redis_up, alive.
  generalize (Z.to_nat max_retries). intros n.
  unfold try_except, Popen_call, register, log_message, emit, modify, bind,
    ret, raise.
  destruct (popen w "redis") as [rp|]; simpl;
    [|eexists; split; [reflexivity | by launch_envs_norm]].
  destruct (poll w (pid rp)); simpl.
  { eexists; split; [reflexivity | by launch_envs_norm]. }
  match goal with
  | |- context [wait_for_redis ?w ?n ?a ?s1] =>
      pose proof (only_emits_launch_envs (wait_for_redis w n a) s1
                    (wait_for_redis_no_popen w n a)) as Hl;
      destruct (wait_for_redis_ok w n a s1) as (s2 & E);
      rewrite E in Hl |- *
  end.
  eexists. split; [reflexivity|]. cbn [snd] in Hl.
  rewrite Hl. by launch_envs_norm.
Qed.

(** Every launch of the start sequence with its environment, in order. *)
Lemma start_sequence_envs w s :
  launch_envs (snd (start_sequence w s))
  = (launch_envs s
     ++ if path_exists w (base_dir w // "redis" // "redis-server.exe")
        then ("redis", os_environ w)
             :: (if redis_up w
                 then map (fun item =>
                             (fst item, service_env (fst item) (load_env w)))
                        (List.filter (fun item => files_exist w (snd item))
                           (services w))
                 else [])
        else [])%list.
Proof.
  unfold start_sequence, try_except.
  destruct (path_exists w (base_dir w // "redis" // "redis-server.exe"));
    cbn [negb]; [|simpl; by launch_envs_norm].
  erewrite bind_Ok by reflexivity.
  destruct (start_redis_envs w
              (set_trace (trace s ++ [EvLogMessage MsgStartingRedis]) s))
    as (s1 & E1 & Hl1).
  erewrite bind_Ok by exact E1.
  rewrite launch_envs_emit, launch_envs_base in Hl1. simpl in Hl1.
  rewrite app_nil_r in Hl1.
  destruct (redis_up w); [|simpl; by rewrite Hl1].
  pose proof (launch_all_envs w (load_env w) (services w) s1) as Hl2.
  destruct (launch_all_spec w (load_env w) (services w) s1) as (Hok & _ & _).
  destruct (for_each (services w) (launch_service w (load_env w)) s1)
    as [r s2] eqn:E2. simpl in Hok, Hl2. subst r.
  erewrite bind_Ok by exact E2.
  match goal with
  | |- context [bind ?a ?b s2] =>
      assert (Hn : only_emits (fun e => sent_popen e = None) (bind a b))
        by (repeat only_emits_step; done);
      pose proof (only_emits_launch_envs (bind a b) s2 Hn) as Hl3;
      destruct (bind a b s2) as [[[]|e] s3]
  end; cbn [fst snd] in *.
  - rewrite Hl3, Hl2, Hl1. by rewrite <- app_assoc.
  - unfold log_message, emit, modify. cbn [snd].
    rewrite launch_envs_emit, launch_envs_base. simpl.
    rewrite app_nil_r, Hl3, Hl2, Hl1. by rewrite <- app_assoc.
Qed.

Lemma launch_envs_start_entered w s :
  launch_envs (start_entered w s) = launch_envs s.
Proof.
  unfold launch_envs, start_entered. simpl. rewrite omap_app. simpl.
  by rewrite app_nil_r.
Qed.



(** ** The health monitor: which probe, and what it changes *)

Lemma check_service_fresh w status item s :
  services_running s = true ->
  confirmed_alive w s item ->
  check_service w (time_now w) status item s
  = (Ok (<[fst item := port_listening w (cfg_port (snd item))]> status),
     set_trace (trace s ++ [EvCheckPort (cfg_port (snd item))]) s).
Proof.
  intros Hon (p & t0 & Hget & Hpoll & Hconf & Hfresh).
  unfold check_service. cbv zeta. unfold bind at 1, get.
  unfold dict_mem, confirmed_recently.
  rewrite Hon, Hget, Hpoll, Hconf. simpl.
  assert ((time_now w - t0 <? 300) = true) as -> by (apply Z.ltb_lt; lia).
  reflexivity.
Qed.

Lemma fold_check_fresh w l :
  forall status s,
    services_running s = true ->
    (forall item, In item l -> confirmed_alive w s item) ->
    exists status',
      fold_each l (check_service w (time_now w)) status s
      = (Ok status',
         set_trace
           (trace s ++ map (fun item => EvCheckPort (cfg_port (snd item))) l)
           s).
Proof.
  induction l as [|item l IH]; intros status s Hon Hall; simpl.
  - exists status. rewrite app_nil_r. by destruct s.
  - unfold bind.
    rewrite check_service_fresh by (try done; apply Hall; by left).
    destruct (IH (<[fst item := port_listening w (cfg_port (snd item))]> status)
                (set_trace (trace s ++ [EvCheckPort (cfg_port (snd item))]) s)
                Hon) as (status' & ->).
    { intros x Hx. apply (Hall x). by right. }
    exists status'. simpl. by rewrite <- app_assoc.
Qed.

Lemma all_confirmed_alive :
  forall item, In item (services busy_world) ->
               confirmed_alive busy_world all_confirmed item.
Proof.
  intros item [<-|[<-|[<-|[]]]];
    eexists _, _; repeat split; try reflexivity; vm_compute; reflexivity.
Qed.

Lemma check_service_counter w t status item :
  keeps (same_on detailed_check_counter) (check_service w t status item).
Proof.
  unfold_check. unfold keeps, same_on. intros s.
  repeat (case_match; simpl in *; simplify_eq); reflexivity.
Qed.

Lemma check_service_agree w t status item name s :
  name ≠ fst item ->
  agree name s (snd (check_service w t status item s)).
Proof.
  intros Hne.
  pose proof (check_service_registry w t status item s) as Hreg.
  pose proof (check_service_counter w t status item s) as Hcnt.
  pose proof (check_service_other w t status item name Hne s) as Hoth.
  unfold same_on in *. injection Hreg as H1 H2. by repeat split.
Qed.

(** A service that the loop does not visit keeps its entries. *)
Lemma fold_check_frame w t name l :
  name ∉ dict_keys l ->
  forall status s status' s',
    fold_each l (check_service w t) status s = (Ok status', s') ->
    status' !! name = status !! name
    /\ services_confirmed_healthy s' !! name
       = services_confirmed_healthy s !! name.
Proof.
  induction l as [|item l IH]; intros Hnot status s status' s' Hrun.
  - simpl in Hrun. by injection Hrun as <- <-.
  - simpl in Hrun, Hnot. apply not_elem_of_cons in Hnot as [Hne Hnot].
    unfold bind in Hrun.
    pose proof (check_service_status w t status item s) as Hst.
    pose proof (check_service_agree w t status item name s Hne)
      as (_ & _ & _ & Hc).
    destruct (check_service w t status item s) as [[status1|e] s1];
      simpl in *; [|discriminate].
    destruct Hst as (b & -> & _).
    destruct (IH Hnot _ _ _ _ Hrun) as [H1 H2].
    rewrite H1, H2, Hc. by rewrite lookup_insert_ne.
Qed.

(** With distinct service names, what the loop leaves for one service is
    what the check of that service alone leaves, run in a state that agrees
    with the initial one on everything the check reads. *)
Lemma fold_check_local w t l :
  NoDup (dict_keys l) ->
  forall name config,
    In (name, config) l ->
    forall status s status' s',
      fold_each l (check_service w t) status s = (Ok status', s') ->
      exists status0 s0 status1 s1,
        check_service w t status0 (name, config) s0 = (Ok status1, s1)
        /\ agree name s s0
        /\ status' !! name = status1 !! name
        /\ services_confirmed_healthy s' !! name
           = services_confirmed_healthy s1 !! name.
Proof.
  induction l as [|item l IH]; intros Hnd name config Hin status s status' s'
    Hrun; [destruct Hin|].
  simpl in Hnd. apply NoDup_cons in Hnd as [Hfresh Hnd].
  simpl in Hrun. unfold bind in Hrun.
  destruct Hin as [->|Hin].
  - destruct (check_service w t status (name, config) s)
      as [[status1|e] s1] eqn:E; [|discriminate].
    destruct (fold_check_frame w t name l Hfresh _ _ _ _ Hrun) as [H1 H2].
    exists status, s, status1, s1. by repeat split.
  - assert (Hne : name ≠ fst item).
    { intros ->. apply Hfresh. apply list_elem_of_In.
      apply in_map_iff. by exists (fst item, config). }
    pose proof (check_service_agree w t status item name s Hne) as Hag.
    destruct (check_service w t status item s) as [[status1|e] s1];
      simpl in *; [|discriminate].
    destruct (IH Hnd name config Hin _ _ _ _ Hrun)
      as (status0 & s0 & st1 & s1' & E & Hag' & H1 & H2).
    exists status0, s0, st1, s1'. split; [exact E|]. split; [|done].
    destruct Hag as (A1 & A2 & A3 & A4), Hag' as (B1 & B2 & B3 & B4).
    repeat split; congruence.
Qed.

(** What the protocol probe of one unconfirmed, running service leaves. *)
Lemma check_service_probe w status item s status1 s1 :
  unconfirmed_alive w s (fst item) ->
  check_service w (time_now w) status item s = (Ok status1, s1) ->
  if answers_200 w item then
    status1 !! fst item = Some true
    /\ services_confirmed_healthy s1 !! fst item = Some (time_now w)
  else
    status1 !! fst item = Some (port_listening w (cfg_port (snd item)))
    /\ services_confirmed_healthy s1 !! fst item = None.
Proof.
  intros (Hon & (p & Hget & Hpoll) & Hstale).
  unfold answers_200. unfold_check.
  rewrite Hon, Hget, Hpoll, Hstale. simpl.
  repeat (case_match; simpl in *; simplify_eq); intros; simplify_eq; simpl;
    rewrite ?lookup_insert_eq, ?lookup_delete_eq; try done.
Qed.

Lemma cycle_local w s name config status interval s' :
  NoDup (dict_keys (services w)) ->
  In (name, config) (services w) ->
  cycle w s = (Ok (status, interval), s') ->
  exists status0 s0 status1 s1,
    check_service w (time_now w) status0 (name, config) s0 = (Ok status1, s1)
    /\ agree name s s0
    /\ status !! name = status1 !! name
    /\ services_confirmed_healthy s' !! name
       = services_confirmed_healthy s1 !! name.
Proof.
  intros Hnd Hin Hcycle.
  apply cycle_inv in Hcycle as (s2 & Hfold & Hconf & _ & _).
  destruct (fold_check_local w (time_now w) (services w) Hnd name config Hin
              _ _ _ _ Hfold) as (status0 & s0 & status1 & s1 & E & Hag & H1 & H2).
  exists status0, s0, status1, s1. rewrite Hconf.
  split; [exact E|]. split; [exact Hag|]. split; [exact H1 | exact H2].
Qed.

Lemma unconfirmed_alive_agree w name s s0 :
  agree name s s0 -> unconfirmed_alive w s name -> unconfirmed_alive w s0 name.
Proof.
  intros (A1 & A2 & _ & A4) (Hon & Hp & Hstale).
  unfold unconfirmed_alive, confirmed_recently in *.
  rewrite A1, A2, A4. by repeat split.
Qed.

(** X7. Protocol probe, success: in a cycle that publishes, a running
    service without a fresh confirmation whose health endpoint answers 200
    (within 10 seconds for gary, 3 for the others) is published as healthy
    and is entered in the confirmed-healthy registry with the time of the
    cycle. *)
Theorem X7_probe_confirms (w : World) (s s' : App) (name : string)
    (config : ServiceConfig) (status : gmap string bool) (interval : Z) :
  NoDup (dict_keys (services w)) ->
  In (name, config) (services w) ->
  unconfirmed_alive w s name ->
  answers_200 w (name, config) = true ->
  cycle w s = (Ok (status, interval), s') ->
  status !! name = Some true
  /\ services_confirmed_healthy s' !! name = Some (time_now w).
Proof.
  intros Hnd Hin Hun Hok Hcycle.
  destruct (cycle_local w s name config status interval s' Hnd Hin Hcycle)
    as (status0 & s0 & status1 & s1 & E & Hag & -> & ->).
  pose proof (check_service_probe w status0 (name, config) s0 status1 s1
                (unconfirmed_alive_agree w name s s0 Hag Hun) E) as H.
  by rewrite Hok in H.
Qed.

(** X8. Protocol probe, failure: in a cycle that publishes, a running
    service without a fresh confirmation whose health endpoint does not
    answer 200 in time loses any confirmed-healthy entry, and is published
    with the result of the port probe: listening counts as healthy. *)
Theorem X8_probe_failure_falls_back (w : World) (s s' : App) (name : string)
    (config : ServiceConfig) (status : gmap string bool) (interval : Z) :
  NoDup (dict_keys (services w)) ->
  In (name, config) (services w) ->
  unconfirmed_alive w s name ->
  answers_200 w (name, config) = false ->
  cycle w s = (Ok (status, interval), s') ->
  status !! name = Some (port_listening w (cfg_port config))
  /\ services_confirmed_healthy s' !! name = None.
Proof.
  intros Hnd Hin Hun Hbad Hcycle.
  destruct (cycle_local w s name config status interval s' Hnd Hin Hcycle)
    as (status0 & s0 & status1 & s1 & E & Hag & -> & ->).
  pose proof (check_service_probe w status0 (name, config) s0 status1 s1
                (unconfirmed_alive_agree w name s s0 Hag Hun) E) as H.
  by rewrite Hbad in H.
Qed.

Lemma default_services_NoDup : NoDup (dict_keys default_services).
Proof.
  apply (bool_decide_unpack _). vm_compute. exact I.
Qed.

Lemma started_unconfirmed w :
  poll w 101 = None -> unconfirmed_alive w started "gary".
Proof.
  intros Hpoll. split; [reflexivity|]. split; [|reflexivity].
  exists (mkPopen 101). by split.
Qed.

Lemma X7_probe_confirms_witness :
  published (fst (cycle partial_world started)) !! "gary" = Some true
  /\ services_confirmed_healthy (snd (cycle partial_world started)) !! "gary"
     = Some 1000.
Proof.
  assert (E : cycle partial_world started
              = (Ok (published (fst (cycle partial_world started)),
                     next_interval (fst (cycle partial_world started))),
                 snd (cycle partial_world started)))
    by (vm_compute; reflexivity).
  apply (X7_probe_confirms partial_world started _ "gary"
           (mkConfig "services/gary" "g4l_localhost.py" 8000 "gary main")
           _ _ default_services_NoDup (or_introl eq_refl)
           (started_unconfirmed partial_world eq_refl) eq_refl E).
Defined.

Lemma X8_probe_failure_falls_back_witness :
  published (fst (cycle busy_world started)) !! "gary" = Some true
  /\ services_confirmed_healthy (snd (cycle busy_world started)) !! "gary"
     = None.
Proof.
  assert (E : cycle busy_world started
              = (Ok (published (fst (cycle busy_world started)),
                     next_interval (fst (cycle busy_world started))),
                 snd (cycle busy_world started)))
    by (vm_compute; reflexivity).
  apply (X8_probe_failure_falls_back busy_world started _ "gary"
           (mkConfig "services/gary" "g4l_localhost.py" 8000 "gary main")
           _ _ default_services_NoDup (or_introl eq_refl)
           (started_unconfirmed busy_world eq_refl) eq_refl E).
Defined.

(** X6. The five-minute confirmation window. While every configured
    service is alive and was confirmed healthy less than 300 seconds before,
    a cycle issues no HTTP health request: its effects are exactly the
    Redis probe, one port probe per service in declaration order, and the
    publication, and it does not refresh the confirmation timestamps. A
    confirmation lapses 300 seconds after the protocol probe that gave it:
    a cycle that publishes 300 seconds or more after the confirmation of a
    live service probes its health endpoint again, and leaves the entry
    renewed with the time of the cycle when the endpoint answers 200 and
    removed otherwise, never as it was. *)
Theorem X6_confirmation_window (w : World) (s : App) :
  services_running s = true ->
  ((forall item, In item (services w) -> confirmed_alive w s item) ->
   exists status interval s',
     cycle w s = (Ok (status, interval), s')
     /\ trace s'
        = (trace s
           ++ EvCheckRedis
              :: map (fun item => EvCheckPort (cfg_port (snd item)))
                   (services w)
           ++ [EvHealthStatus status])%list
     /\ services_confirmed_healthy s' = services_confirmed_healthy s)
  /\ (NoDup (dict_keys (services w)) ->
      forall name config p t0 status interval s',
        In (name, config) (services w) ->
        dict_get name (processes s) = Some p ->
        poll w (pid p) = None ->
        services_confirmed_healthy s !! name = Some t0 ->
        300 <= time_now w - t0 ->
        cycle w s = (Ok (status, interval), s') ->
        services_confirmed_healthy s' !! name
        = (if answers_200 w (name, config) then Some (time_now w) else None)
        /\ services_confirmed_healthy s' !! name ≠ Some t0
        /\ status !! name
           = Some (answers_200 w (name, config)
                   || port_listening w (cfg_port config))).
Proof.
  intros Hon. split.
  - intros Hall. rewrite cycle_eq.
    destruct (fold_check_fresh w (services w)
                (<["redis" := redis_health w 0]> ∅)
                (set_trace (trace s ++ [EvCheckRedis]) s) Hon Hall)
      as (status & ->).
    eexists _, _, _. split; [reflexivity|]. simpl. split; [|done].
    by rewrite <- !app_assoc.
  - intros Hnd name config p t0 status interval s' Hin Hget Hpoll Hconf Hold
      Hcycle.
    assert (Hun : unconfirmed_alive w s name).
    { split; [exact Hon|]. split; [by exists p|].
      unfold confirmed_recently. rewrite Hconf. apply Z.ltb_ge. lia. }
    destruct (cycle_local w s name config status interval s' Hnd Hin Hcycle)
      as (status0 & s0 & status1 & s1 & E & Hag & -> & ->).
    pose proof (check_service_probe w status0 (name, config) s0 status1 s1
                  (unconfirmed_alive_agree w name s s0 Hag Hun) E) as H.
    simpl in H.
    destruct (answers_200 w (name, config)); destruct H as [-> ->];
      repeat split; try done.
    intros [= Ht]. lia.
Qed.

Lemma X6_confirmation_window_witness :
  (exists status interval s',
     cycle busy_world all_confirmed = (Ok (status, interval), s')
     /\ trace s'
        = [EvCheckRedis; EvCheckPort 8000; EvCheckPort 8002; EvCheckPort 8005;
           EvHealthStatus status])
  /\ services_confirmed_healthy (snd (cycle busy_world lapsed)) !! "gary"
     = None
  /\ services_confirmed_healthy (snd (cycle partial_world lapsed)) !! "gary"
     = Some 1000.
Proof.
  split; [|split].
  - destruct (proj1 (X6_confirmation_window busy_world all_confirmed eq_refl)
                all_confirmed_alive)
      as (status & interval & s' & E & Ht & _).
    exists status, interval, s'. split; [exact E | exact Ht].
  - assert (E : cycle busy_world lapsed
                = (Ok (published (fst (cycle busy_world lapsed)),
                       next_interval (fst (cycle busy_world lapsed))),
                   snd (cycle busy_world lapsed)))
      by (vm_compute; reflexivity).
    apply (proj2 (X6_confirmation_window busy_world lapsed eq_refl)
             default_services_NoDup "gary"
             (mkConfig "services/gary" "g4l_localhost.py" 8000 "gary main")
             (mkPopen 101) 700 _ _ _ (or_introl eq_refl) eq_refl eq_refl
             eq_refl ltac:(vm_compute; discriminate) E).
  - assert (E : cycle partial_world lapsed
                = (Ok (published (fst (cycle partial_world lapsed)),
                       next_interval (fst (cycle partial_world lapsed))),
                   snd (cycle partial_world lapsed)))
      by (vm_compute; reflexivity).
    apply (proj2 (X6_confirmation_window partial_world lapsed eq_refl)
             default_services_NoDup "gary"
             (mkConfig "services/gary" "g4l_localhost.py" 8000 "gary main")
             (mkPopen 101) 700 _ _ _ (or_introl eq_refl) eq_refl eq_refl
             eq_refl ltac:(vm_compute; discriminate) E).
Defined.

(** ** Lines the monitor never logs *)

Lemma check_service_quiet w t status item :
  only_emits not_healthy_line (check_service w t status item).
Proof.
  intros s. unfold_check.
  repeat (case_match; simpl in *; simplify_eq).
  all: try (exists []; by rewrite app_nil_r).
  all: try (eexists; split; [norm_trace; reflexivity|];
            repeat constructor; intros d; discriminate).
  all: try match goal with
           | H : context [<[?k:=?v]> ?m !! ?k] |- _ =>
               rewrite lookup_insert_eq in H; simpl in H;
               rewrite Z.sub_diag in H; discriminate
           end.
Qed.

Lemma sleep_loop_quiet n :
  forall j stop_at, only_emits not_healthy_line (sleep_loop n j stop_at).
Proof.
  induction n as [|n IH]; intros j stop_at; simpl.
  - destruct stop_at; unfold stop; repeat only_emits_step; done.
  - unfold stop.
    repeat first [ apply IH | only_emits_step ]; done.
Qed.

Lemma cycle_quiet w : only_emits not_healthy_line (cycle w).
Proof.
  unfold cycle, check_redis_health. cbv zeta.
  repeat first [ apply check_service_quiet | only_emits_step ]; done.
Qed.

Lemma add_log_quiet w m :
  (forall d, m ≠ MsgIsHealthy d) -> only_emits not_healthy_line (add_log w m).
Proof.
  intros Hm. unfold add_log. destruct (add_log_raises w m).
  - apply only_emits_raise.
  - apply only_emits_emit. intros d E. injection E as ->. by apply (Hm d).
Qed.

(** X9. The health monitor never logs the line that reports a service as
    healthy: the test that guards it is made right after the service was
    entered in the confirmed-healthy registry with the current time, and
    can therefore not hold. Whatever the worlds, the stop requests and the
    number of cycles, [run] adds no such line to the log. *)
Theorem X9_healthy_line_never_logged (fuel : nat) (env : nat -> World)
    (stops : nat -> option nat) (i : nat) (s : App) :
  exists t,
    trace (snd (run fuel env stops i s)) = (trace s ++ t)%list
    /\ Forall not_healthy_line t.
Proof.
  revert i s. induction fuel as [|fuel IH]; intros i s;
    destruct (hc_running s) eqn:Hrun;
    try (rewrite run_stopped by done; exists []; by rewrite app_nil_r).
  - simpl. rewrite Hrun. exists []. by rewrite app_nil_r.
  - rewrite run_S by done.
    destruct (cycle_quiet (env i) s) as (t1 & E1 & F1).
    destruct (cycle (env i) s) as [[r|e] s1]; simpl in E1.
    + destruct (sleep_loop_quiet (Z.to_nat (snd r * 10)) 0 (stops i) s1)
        as (t2 & E2 & F2).
      destruct (sleep_loop_ok (Z.to_nat (snd r * 10)) 0 (stops i) s1)
        as (s2 & Hs).
      rewrite Hs in E2 |- *. simpl in E2.
      destruct (IH (S i) s2) as (t3 & E3 & F3).
      exists (t1 ++ t2 ++ t3)%list. rewrite E3, E2, E1, <- !app_assoc.
      split; [done|]. by repeat apply Forall_app_2.
    + destruct (add_log_quiet (env i) MsgHealthCheckError
                  (fun d => ltac:(discriminate)) s1) as (t2 & E2 & F2).
      exists (t1 ++ t2)%list.
      destruct (add_log (env i) MsgHealthCheckError s1) as [[[]|e'] s2];
        simpl in *; rewrite E2, E1, <- app_assoc;
        (split; [done | by apply Forall_app_2]).
Qed.

(** ** Shape of the snapshot and of the confirmed-healthy registry *)

Lemma fold_check_dom w t l :
  forall status s status' s',
    fold_each l (check_service w t) status s = (Ok status', s') ->
    forall k, is_Some (status' !! k)
              <-> is_Some (status !! k) \/ In k (dict_keys l).
Proof.
  induction l as [|item l IH]; intros status s status' s' Hrun k.
  - simpl in Hrun. injection Hrun as <- <-. simpl. tauto.
  - simpl in Hrun. unfold bind in Hrun.
    pose proof (check_service_status w t status item s) as Hst.
    destruct (check_service w t status item s) as [[status1|e] s1];
      simpl in *; [|discriminate].
    destruct Hst as (b & -> & _).
    rewrite (IH _ _ _ _ Hrun k), lookup_insert_is_Some.
    destruct (decide (fst item = k)); tauto.
Qed.

(** X10. A published snapshot is a full replacement: it has an entry for
    Redis and for every configured service, and for nothing else, whatever
    the last snapshot or the registry held. *)
Theorem X10_snapshot_domain (w : World) (s s' : App)
    (status : gmap string bool) (interval : Z) :
  cycle w s = (Ok (status, interval), s') ->
  forall k, is_Some (status !! k)
            <-> k = "redis" \/ In k (dict_keys (services w)).
Proof.
  intros Hcycle k.
  apply cycle_inv in Hcycle as (s1 & Hfold & _).
  rewrite (fold_check_dom _ _ _ _ _ _ _ Hfold k), lookup_insert_is_Some.
  rewrite lookup_empty. split.
  - intros [[?|[_ H]]|?]; [by left | by destruct H | by right].
  - intros [->|?]; [left; by left | by right].
Qed.

Lemma check_service_stamps w t status item s k t' :
  services_confirmed_healthy (snd (check_service w t status item s)) !! k
  = Some t' ->
  services_confirmed_healthy s !! k = Some t' \/ (t' = t /\ k = fst item).
Proof.
  unfold_check.
  repeat (case_match; simpl in *; simplify_eq); simpl;
    intros Hk; destruct (decide (k = fst item)) as [->|Hne];
    simplify_map_eq; auto.
Qed.

Lemma fold_check_stamps w t l :
  forall status s k t',
    services_confirmed_healthy
      (snd (fold_each l (check_service w t) status s)) !! k = Some t' ->
    services_confirmed_healthy s !! k = Some t'
    \/ (t' = t /\ In k (dict_keys l)).
Proof.
  induction l as [|item l IH]; intros status s k t' H; simpl in H.
  - by left.
  - unfold bind in H.
    pose proof (check_service_stamps w t status item s k t') as H1.
    destruct (check_service w t status item s) as [[status1|e] s1];
      simpl in *.
    + destruct (IH _ _ _ _ H) as [H2|[-> H2]].
      * destruct (H1 H2) as [?|[-> ->]]; [by left | right; split; auto].
      * right. split; auto.
    + destruct (H1 H) as [?|[-> ->]]; [by left | right; split; auto].
Qed.

(** X11. A cycle, also one that ends in an exception, changes the
    confirmed-healthy registry only by evicting entries or by stamping a
    configured service with the time of the cycle: every entry it leaves
    was there before with the same timestamp, or belongs to a configured
    service and carries the current time. *)
Theorem X11_registry_stamps (w : World) (s : App) (k : string) (t' : Z) :
  services_confirmed_healthy (snd (cycle w s)) !! k = Some t' ->
  services_confirmed_healthy s !! k = Some t'
  \/ (t' = time_now w /\ In k (dict_keys (services w))).
Proof.
  rewrite cycle_eq. intros H.
  apply (fold_check_stamps w (time_now w) (services w)
           (<["redis" := redis_health w 0]> ∅)
           (set_trace (trace s ++ [EvCheckRedis]) s) k t').
  destruct (fold_each _ _ _ _) as [[status1|e] s1]; exact H.
Qed.

Lemma X10_snapshot_domain_witness :
  is_Some (published (fst (cycle busy_world started)) !! "melodyflow")
  /\ ~ is_Some (published (fst (cycle busy_world started)) !! "postgres").
Proof.
  assert (E : cycle busy_world started
              = (Ok (published (fst (cycle busy_world started)),
                     next_interval (fst (cycle busy_world started))),
                 snd (cycle busy_world started)))
    by (vm_compute; reflexivity).
  pose proof (X10_snapshot_domain busy_world started _ _ _ E) as Hdom.
  split.
  - apply Hdom. right. right. left. reflexivity.
  - intros H. apply Hdom in H as [H|[H|[H|[H|[]]]]]; discriminate.
Defined.

Lemma X11_registry_stamps_witness :
  services_confirmed_healthy started !! "gary" = Some 1000
  \/ (1000 = time_now partial_world
      /\ In "gary" (dict_keys (services partial_world))).
Proof.
  apply (X11_registry_stamps partial_world started "gary" 1000).
  vm_compute. reflexivity.
Defined.

(** ** The interruptible sleep *)

Lemma set_trace_id s : set_trace (trace s) s = s.
Proof. by destruct s. Qed.

Lemma sleep_loop_through n :
  forall j s,
    hc_running s = true ->
    sleep_loop n j None s
    = (Ok tt, set_trace (trace s ++ repeat (EvSleep 100) n) s).
Proof.
  induction n as [|n IH]; intros j s Hrun; simpl.
  - unfold ret. by rewrite app_nil_r, set_trace_id.
  - unfold bind, get, emit, modify, ret. simpl. rewrite Hrun. simpl.
    rewrite IH by done. simpl. by rewrite <- app_assoc.
Qed.

Lemma sleep_loop_interrupted n :
  forall j k s,
    hc_running s = true ->
    sleep_loop n j (Some (j + k)%nat) s
    = (Ok tt,
       set_hc_running false
         (set_trace (trace s ++ repeat (EvSleep 100) (Nat.min k n)) s)).
Proof.
  induction n as [|n IH]; intros j k s Hrun; simpl.
  - unfold stop, modify. rewrite Nat.min_0_r. simpl.
    by rewrite app_nil_r, set_trace_id.
  - unfold bind, get, emit, modify, ret, stop.
    destruct k as [|k].
    + rewrite Nat.add_0_r, bool_decide_eq_true_2 by done. simpl.
      by rewrite app_nil_r, set_trace_id.
    + rewrite bool_decide_eq_false_2 by (intros [=]; lia).
      simpl. rewrite Hrun. simpl.
      replace (j + S k)%nat with (S j + k)%nat by lia.
      rewrite IH by done. simpl. by rewrite <- app_assoc.
Qed.

(** X12. The sleep between two cycles is cut in slices of 100 ms. Not
    interrupted, it sleeps ten slices per second of the chosen interval and
    leaves the stop flag alone; when another thread calls [stop] before
    the check of slice [k], it sleeps exactly the [k] slices before it (at
    most all of them) and ends with the flag cleared, so a stop request is
    honoured within one slice. *)
Theorem X12_sleep_slices (interval : Z) (s : App) :
  hc_running s = true ->
  sleep_loop (Z.to_nat (interval * 10)) 0 None s
  = (Ok tt,
     set_trace
       (trace s ++ repeat (EvSleep 100) (Z.to_nat (interval * 10))) s)
  /\ forall k,
       sleep_loop (Z.to_nat (interval * 10)) 0 (Some k) s
       = (Ok tt,
          set_hc_running false
            (set_trace
               (trace s
                ++ repeat (EvSleep 100)
                     (Nat.min k (Z.to_nat (interval * 10)))) s)).
Proof.
  intros Hrun. split.
  - by apply sleep_loop_through.
  - intros k. by apply (sleep_loop_interrupted _ 0 k).
Qed.

Lemma X12_sleep_slices_witness :
  trace (snd (sleep_loop (Z.to_nat (3 * 10)) 0 (Some 2%nat) started))
  = [EvSleep 100; EvSleep 100]
  /\ length (trace (snd (sleep_loop (Z.to_nat (3 * 10)) 0 None started)))
     = 30%nat.
Proof.
  destruct (X12_sleep_slices 3 started eq_refl) as [Hfull Hstop].
  rewrite Hfull, (Hstop 2%nat). split; reflexivity.
Defined.

(** ** Consistency of the status aggregation *)

Lemma count_if_le {A} (f : A -> bool) (l : list A) :
  (count_if f l <= length l)%nat.
Proof. induction l as [|x l IH]; simpl; [lia|]. destruct (f x); lia. Qed.

Lemma count_if_all {A} (f : A -> bool) (l : list A) :
  count_if f l = length l -> forall x, In x l -> f x = true.
Proof.
  induction l as [|y l IH]; simpl; intros Hc x Hin; [destruct Hin|].
  pose proof (count_if_le f l) as Hle.
  destruct (f y) eqn:Hy; [|lia].
  destruct Hin as [<-|Hin]; [exact Hy|]. apply IH; [lia | exact Hin].
Qed.

(** X13. The overall state and the per-service states agree: when
    [get_system_status] answers [running], every configured service has a
    live registered handle and its widget shows [running] or [starting],
    never [error] or [stopped]. *)
Theorem X13_running_means_no_error (w : World) (s : App) :
  get_system_status w s = running ->
  forall item, In item (services w) ->
    no_live_handle w s (fst item) = false
    /\ (service_status w s item = running
        \/ service_status w s item = starting).
Proof.
  unfold get_system_status.
  destruct (services_running s) eqn:Hon; simpl; [|discriminate].
  destruct (0 <? Z.of_nat (count_if _ (processes s))); [discriminate|].
  destruct (bool_decide _) eqn:Hall; simpl.
  2:{ destruct (_ || _); discriminate. }
  intros _ item Hin.
  apply bool_decide_eq_true_1 in Hall.
  pose proof (count_if_all _ _ Hall item Hin) as Hitem. simpl in Hitem.
  unfold no_live_handle, service_status. rewrite Hon. simpl.
  destruct (dict_get (fst item) (processes s)) as [p|]; [|discriminate].
  apply andb_true_iff in Hitem as [Halive Hhealthy].
  rewrite Halive. simpl. split; [reflexivity|].
  destruct (status_get (last_health_status s) (fst item)); simpl in *.
  - rewrite andb_false_r. by left.
  - rewrite Hhealthy, andb_true_r. destruct (String.eqb _ _); by right.
Qed.

Lemma X13_running_means_no_error_witness :
  service_status busy_world all_healthy
    ("gary", mkConfig "services/gary" "g4l_localhost.py" 8000 "gary main")
  = running
  \/ service_status busy_world all_healthy
       ("gary", mkConfig "services/gary" "g4l_localhost.py" 8000 "gary main")
     = starting.
Proof.
  apply (X13_running_means_no_error busy_world all_healthy eq_refl
           ("gary", mkConfig "services/gary" "g4l_localhost.py" 8000
                      "gary main")).
  left. reflexivity.
Defined.

(** ** Buttons and entry points *)

(** X14. The buttons mirror the guards of the entry points. The start and
    stop buttons are never enabled together and both are disabled while a
    worker operation is in flight; an entry point whose button is disabled
    does nothing; and pressing an enabled button, when its log line goes
    through, queues the matching operation and thereby disables both
    buttons. *)
Theorem X14_buttons_mirror_guards (w : World) (s : App) :
  buttons_enabled s <> (true, true)
  /\ (worker_isRunning s = true -> buttons_enabled s = (false, false))
  /\ (fst (buttons_enabled s) = false -> start_services w s = (Ok tt, s))
  /\ (snd (buttons_enabled s) = false -> stop_services w s = (Ok tt, s))
  /\ (fst (buttons_enabled s) = true ->
      add_log_raises w MsgStartingServices = false ->
      worker_operation (snd (start_services w s)) = Some OpStart
      /\ buttons_enabled (snd (start_services w s)) = (false, false))
  /\ (snd (buttons_enabled s) = true ->
      add_log_raises w MsgStoppingServices = false ->
      worker_operation (snd (stop_services w s)) = Some OpStop
      /\ buttons_enabled (snd (stop_services w s)) = (false, false)).
Proof.
  unfold buttons_enabled, start_services, stop_services, queue_operation,
    add_log, bind, get, emit, modify, ret, raise. simpl.
  destruct (services_running s) eqn:Hon, (worker_isRunning s) eqn:Hw;
    simpl; repeat split; try done;
    match goal with
    | H : add_log_raises _ _ = false |- _ => rewrite H
    end; simpl; by rewrite ?Hon.
Qed.

Lemma X14_buttons_mirror_guards_witness :
  buttons_enabled initial = (true, false)
  /\ stop_services silent_world initial = (Ok tt, initial)
  /\ buttons_enabled (snd (start_services silent_world initial))
     = (false, false).
Proof.
  destruct (X14_buttons_mirror_guards silent_world initial)
    as (_ & _ & _ & Hstop & Hstart & _).
  split; [reflexivity|]. split; [by apply Hstop|].
  by apply Hstart.
Defined.

(** ** The dependency probe *)



(** ** Start followed by stop *)

Lemma dict_get_In {V} (k : string) (v : V) d :
  dict_get k d = Some v -> In v (map snd d).
Proof.
  induction d as [|[k' v'] d IH]; simpl; [discriminate|].
  destruct (String.eqb k k'); [intros [= ->]; by left | right; by apply IH].
Qed.

Lemma _start_services_sets_flag w s :
  services_running s = false ->
  services_running (snd (_start_services w s)) = true.
Proof.
  intros Hoff. rewrite (_start_services_entry w s Hoff).
  pose proof (start_sequence_flag w (start_entered w s)) as Hflag.
  unfold flag_and_time in Hflag. simpl in Hflag. by injection Hflag.
Qed.

(** X16. Start followed by stop is a round trip on the supervisor state:
    whatever happened during the start sequence, and on whatever machine
    the stop runs, a stop sequence that follows a start sequence completes
    and leaves an empty registry, the running flag false and no start
    timestamp, after asking every process the start had registered and
    that is still alive to terminate. *)
Theorem X16_start_then_stop (w w' : World) (s : App) :
  services_running s = false ->
  fst (_stop_services w' (snd (_start_services w s))) = Ok tt
  /\ processes (snd (_stop_services w' (snd (_start_services w s)))) = []
  /\ services_running (snd (_stop_services w' (snd (_start_services w s))))
     = false
  /\ start_time (snd (_stop_services w' (snd (_start_services w s)))) = None
  /\ forall name p,
       dict_get name (processes (snd (_start_services w s))) = Some p ->
       poll w' (pid p) = None ->
       In (pid p)
         (terminated (snd (_stop_services w' (snd (_start_services w s))))).
Proof.
  intros Hoff.
  pose proof (_start_services_sets_flag w s Hoff) as Hon.
  destruct (_stop_services_spec w' (snd (_start_services w s)) Hon)
    as (t & -> & Ht & _).
  simpl. repeat split.
  intros name p Hget Hpoll. unfold terminated. simpl.
  rewrite omap_app, Ht. apply in_app_iff. right.
  apply in_map. apply filter_In. split.
  - by apply (dict_get_In name).
  - unfold alive. by rewrite Hpoll.
Qed.

Lemma X16_start_then_stop_witness :
  processes (snd (_stop_services stubborn_world
                    (snd (_start_services silent_world initial)))) = []
  /\ In 102 (terminated (snd (_stop_services stubborn_world
                               (snd (_start_services silent_world initial))))).
Proof.
  destruct (X16_start_then_stop silent_world stubborn_world initial eq_refl)
    as (_ & Hreg & _ & _ & Hterm).
  split; [exact Hreg|].
  apply (Hterm "melodyflow" (mkPopen 102)); reflexivity.
Defined.

(** ** The bounded wait for Redis *)



(** ** A whole operation: request, worker, buttons *)

Lemma worker_thread_start w s :
  worker_operation s = Some OpStart ->
  worker_thread w s
  = (Ok tt,
     set_worker (worker_operation (snd (_start_services w s))) false
       (snd (_start_services w s))).
Proof.
  intros Hop. unfold worker_thread, worker_run, try_except.
  unfold bind at 1. unfold bind at 1, get. rewrite Hop.
  destruct (_start_services w s) as [[[]|e] s1]; reflexivity.
Qed.

Lemma worker_thread_stop w s :
  worker_operation s = Some OpStop ->
  worker_thread w s
  = (Ok tt,
     set_worker (worker_operation (snd (_stop_services w s))) false
       (snd (_stop_services w s))).
Proof.
  intros Hop. unfold worker_thread, worker_run, try_except.
  unfold bind at 1. unfold bind at 1, get. rewrite Hop.
  destruct (_stop_services w s) as [[[]|e] s1]; reflexivity.
Qed.

(** X18. A whole operation ends with the opposite control enabled. From
    an idle, stopped control center, an accepted start request followed by
    the worker's run ends with the running flag true, the worker idle, the
    stop button enabled and the start button disabled, whatever happened
    to Redis and the services; from an idle, running one, an accepted stop
    request followed by the worker's run ends with the flag false, an
    empty registry, and the start button enabled. *)
Theorem X18_operation_lifecycle (w w' : World) (s : App) :
  worker_isRunning s = false ->
  (services_running s = false ->
   add_log_raises w MsgStartingServices = false ->
   services_running (snd (worker_thread w' (snd (start_services w s)))) = true
   /\ buttons_enabled (snd (worker_thread w' (snd (start_services w s))))
      = (false, true))
  /\ (services_running s = true ->
      add_log_raises w MsgStoppingServices = false ->
      processes (snd (worker_thread w' (snd (stop_services w s)))) = []
      /\ buttons_enabled (snd (worker_thread w' (snd (stop_services w s))))
         = (true, false)).
Proof.
  intros Hidle. split; intros Hflag Hlog.
  - assert (E : start_services w s
                = (Ok tt,
                   set_trace
                     (trace s ++ [EvStartBtnEnabled false;
                                  EvAddLog MsgStartingServices;
                                  EvWorkerStart OpStart])
                     (set_worker (Some OpStart) true s))).
    { unfold start_services, queue_operation, add_log, bind, get, emit,
        modify, ret. simpl. rewrite Hflag, Hidle, Hlog. norm_trace.
      reflexivity. }
    rewrite E. cbn [snd]. rewrite worker_thread_start by reflexivity.
    cbn [snd]. unfold buttons_enabled. simpl.
    rewrite _start_services_sets_flag by exact Hflag. by split.
  - assert (E : stop_services w s
                = (Ok tt,
                   set_trace
                     (trace s ++ [EvStopBtnEnabled false;
                                  EvAddLog MsgStoppingServices;
                                  EvWorkerStart OpStop])
                     (set_worker (Some OpStop) true s))).
    { unfold stop_services, queue_operation, add_log, bind, get, emit,
        modify, ret. simpl. rewrite Hflag, Hidle, Hlog. norm_trace.
      reflexivity. }
    rewrite E. cbn [snd]. rewrite worker_thread_stop by reflexivity.
    cbn [snd]. unfold buttons_enabled.
    match goal with
    | |- context [_stop_services w' ?s1] =>
        destruct (_stop_services_spec w' s1 Hflag) as (t & -> & _)
    end.
    simpl. by split.
Qed.

Lemma X18_operation_lifecycle_witness :
  buttons_enabled
    (snd (worker_thread silent_world (snd (start_services silent_world initial))))
  = (false, true)
  /\ buttons_enabled
       (snd (worker_thread stubborn_world
               (snd (stop_services silent_world started))))
     = (true, false).
Proof.
  destruct (X18_operation_lifecycle silent_world silent_world initial eq_refl)
    as [Hstart _].
  destruct (X18_operation_lifecycle silent_world stubborn_world started
              eq_refl) as [_ Hstop].
  split; [by apply Hstart | by apply Hstop].
Defined.

(** ** Sampling of the detailed probe *)

Lemma check_service_plain w t status item s :
  (detailed_check_counter s mod 20 =? 0) = false ->
  exists t',
    trace (snd (check_service w t status item s)) = (trace s ++ t')%list
    /\ Forall no_detail t'.
Proof.
  intros Hcnt. unfold_check.
  repeat (case_match; simpl in *; simplify_eq).
  all: try (exists []; by rewrite app_nil_r).
  all: eexists; split; [norm_trace; reflexivity|];
    repeat constructor; intros n d; discriminate.
Qed.

Lemma fold_check_plain w t l :
  forall status s,
    (detailed_check_counter s mod 20 =? 0) = false ->
    exists t',
      trace (snd (fold_each l (check_service w t) status s))
      = (trace s ++ t')%list
      /\ Forall no_detail t'
      /\ detailed_check_counter (snd (fold_each l (check_service w t) status s))
         = detailed_check_counter s.
Proof.
  induction l as [|item l IH]; intros status s Hcnt; simpl.
  - exists []. by rewrite app_nil_r.
  - unfold bind.
    destruct (check_service_plain w t status item s Hcnt) as (t1 & E1 & F1).
    pose proof (check_service_counter w t status item s) as Hc.
    unfold same_on in Hc.
    destruct (check_service w t status item s) as [[status1|e] s1];
      simpl in *.
    + rewrite <- Hc in Hcnt.
      destruct (IH status1 s1 Hcnt) as (t2 & E2 & F2 & C2).
      exists (t1 ++ t2)%list. rewrite E2, E1, C2, Hc, <- app_assoc.
      split; [done|]. split; [by apply Forall_app_2 | done].
    + exists t1. by repeat split.
Qed.

(** X19. The detailed diagnostic probe is sampled on the cycle counter: a
    cycle that starts with a counter that is not a multiple of 20 emits no
    [detailed_health] signal, whatever the services answer, and a cycle
    that publishes advances the counter by exactly one, so that at most
    every twentieth published cycle carries detailed diagnostics. *)
Theorem X19_detailed_sampling (w : World) (s : App) :
  (detailed_check_counter s mod 20 <> 0 ->
   exists t, trace (snd (cycle w s)) = (trace s ++ t)%list
             /\ Forall no_detail t)
  /\ (forall r s', cycle w s = (Ok r, s') ->
        detailed_check_counter s' = detailed_check_counter s + 1).
Proof.
  split.
  - intros Hcnt. apply Z.eqb_neq in Hcnt. rewrite cycle_eq.
    destruct (fold_check_plain w (time_now w) (services w)
                (<["redis" := redis_health w 0]> ∅)
                (set_trace (trace s ++ [EvCheckRedis]) s) Hcnt)
      as (t & E & F & _).
    destruct (fold_each _ _ _ _) as [[status|e] s1]; simpl in *.
    + exists ([EvCheckRedis] ++ t ++ [EvHealthStatus status])%list.
      rewrite E, <- !app_assoc. split; [done|].
      repeat (apply Forall_app_2 || apply Forall_cons_2 || apply Forall_nil_2);
        try done; intros n d; discriminate.
    + exists ([EvCheckRedis] ++ t)%list. rewrite E, <- app_assoc.
      split; [done|]. apply Forall_app_2; [|done].
      repeat constructor. intros n d; discriminate.
  - intros r s' Hcycle. rewrite cycle_eq in Hcycle.
    assert (Hk : keeps (same_on detailed_check_counter)
                   (fold_each (services w) (check_service w (time_now w))
                      (<["redis" := redis_health w 0]> ∅)))
      by (apply keeps_fold_each; try exact _; intros;
          apply check_service_counter).
    pose proof (Hk (set_trace (trace s ++ [EvCheckRedis]) s)) as Hc.
    unfold same_on in Hc.
    destruct (fold_each _ _ _ _) as [[status|e] s1]; [|discriminate].
    injection Hcycle as <- <-. simpl in *. by rewrite Hc.
Qed.

Lemma X19_detailed_sampling_witness :
  detailed_check_counter (snd (cycle busy_world started)) = 2
  /\ exists t,
       trace (snd (cycle busy_world started)) = (trace started ++ t)%list
       /\ Forall no_detail t.
Proof.
  destruct (X19_detailed_sampling busy_world started) as [Hquiet Hstep].
  split.
  - apply (Hstep (published (fst (cycle busy_world started)),
                  next_interval (fst (cycle busy_world started)))).
    vm_compute. reflexivity.
  - apply Hquiet. vm_compute. discriminate.
Defined.
